(** * zbx_gh.py: the redaction-and-export pipeline of the Zabbix archiver

    A shallow embedding of [src/zbx_gh.py] and the properties its
    specification states about it.

    Modelling conventions.
    - A Python [str] is a Rocq [string] whose characters are the code points
      U+0000..U+00FF; [str.lower], the JSON escapes and the CSV quoting are
      given for exactly these code points.
    - A JSON object received from the Zabbix API is a [gmap string string]:
      Zabbix returns every property as a JSON string, and a key may be
      absent.  [d[k]] on an absent key raises [KeyError].
    - The exported record is the five-key dict literal of [main]; it is a
      Rocq record, and [record_items] lists its pairs in insertion order.
    - The clock, the API and the file system are the outside world: every
      [datetime.now()] consumes one reading of the clock, every API call is
      answered by the [Api] value, every [open(path, "w")] replaces the
      content stored under [path]. *)

From Stdlib Require Import Ascii String List Bool Arith.
From Stdlib Require Import DecimalString.
From Stdlib Require DecimalNat.
From stdpp Require Import base tactics option list gmap strings.

#[local] Arguments String.append !_ _ / : simpl nomatch.

(** ** Strings *)

Module Str.

(** [s.lower()] on code points below U+0100: the upper-case letters are
    A-Z, U+00C0-U+00D6 and U+00D8-U+00DE, each 32 below its lower-case
    letter. *)
Definition is_upper (n : nat) : bool :=
  ((65 <=? n) && (n <=? 90)) || ((192 <=? n) && (n <=? 214))
  || ((216 <=? n) && (n <=? 222)).

Definition lower_char (c : ascii) : ascii :=
  let n := nat_of_ascii c in
  if is_upper n then ascii_of_nat (n + 32) else c.

Fixpoint lower (s : string) : string :=
  match s with
  | EmptyString => EmptyString
  | String c s' => String (lower_char c) (lower s')
  end.

(** [s.startswith(p)] *)
Fixpoint startswith (p s : string) : bool :=
  match p, s with
  | EmptyString, _ => true
  | String _ _, EmptyString => false
  | String a p', String b s' => Ascii.eqb a b && startswith p' s'
  end.

(** [p in s], the substring test *)
Fixpoint contains (p s : string) : bool :=
  startswith p s ||
  match s with
  | EmptyString => false
  | String _ s' => contains p s'
  end.

(** What [p in s] means: [p] occurs somewhere in [s]. *)
Definition occurs_in (p s : string) : Prop :=
  exists pre post, s = pre +:+ p +:+ post.

(** [sep.join(l)] *)
Fixpoint join (sep : string) (l : list string) : string :=
  match l with
  | [] => ""
  | [x] => x
  | x :: rest => x +:+ sep +:+ join sep rest
  end.

(** [any(f(c) for c in s)] *)
Fixpoint any (f : ascii -> bool) (s : string) : bool :=
  match s with
  | EmptyString => false
  | String c s' => f c || any f s'
  end.

(** [s * n] *)
Fixpoint repeat (s : string) (n : nat) : string :=
  match n with
  | O => ""
  | S n' => s +:+ repeat s n'
  end.

(** [str(n)] for a non-negative int *)
Definition of_nat (n : nat) : string :=
  NilZero.string_of_uint (Nat.to_uint n).

(** [s.zfill(width)] for a digit string *)
Definition zfill (width : nat) (s : string) : string :=
  repeat "0" (width - String.length s) +:+ s.

(** Feeding a string to an automaton, one character at a time. *)
Fixpoint feed {A : Type} (step : A -> ascii -> A) (a : A) (s : string) : A :=
  match s with
  | EmptyString => a
  | String c s' => feed step (step a c) s'
  end.

Definition LF : ascii := "010"%char.
Definition CR : ascii := "013"%char.
Definition DQUOTE : ascii := "034"%char.
Definition BACKSLASH : ascii := "092"%char.

Definition of_char (c : ascii) : string := String c EmptyString.

Definition nl : string := of_char LF.
Definition dq : string := of_char DQUOTE.

(** A string literal of the source between its double quotes. *)
Definition quoted (s : string) : string := dq +:+ s +:+ dq.

End Str.

(** ** Errors

    The exceptions the modelled code can raise; [main] catches every one of
    them, prints it and exits with status 1. *)

Inductive exn : Type :=
| KeyError (key : string)
| ValueError (msg : string).

Inductive result (A : Type) : Type :=
| Ok (a : A)
| Raise (e : exn).

Arguments Ok {A} a.
Arguments Raise {A} e.

Definition bind {A B : Type} (m : result A) (k : A -> result B) : result B :=
  match m with
  | Ok a => k a
  | Raise e => Raise e
  end.

Notation "x <- m ;; k" := (bind m (fun x => k))
  (at level 100, m at next level, right associativity).

(** [d[k]] *)
Definition getitem (d : gmap string string) (k : string) : result string :=
  match d !! k with
  | Some v => Ok v
  | None => Raise (KeyError k)
  end.

(** ** Redaction policy *)

(** Fields to redact (case-insensitive); a Python set. *)
Definition REDACTED_FIELDS : gset string :=
  {[ "system name"; "system description"; "host name";
     "ip address"; "mac address"; "serial number"; "redacted" ]}.

(** [any(field in metric_lower for field in REDACTED_FIELDS)] *)
Definition should_redact (metric_name : string) : bool :=
  let metric_lower := Str.lower metric_name in
  existsb (fun field => Str.contains field metric_lower)
          (elements REDACTED_FIELDS).

(** ** The clock *)

Record datetime : Type := {
  year : nat; month : nat; day : nat;
  hour : nat; minute : nat; second : nat
}.

(** [d.strftime(fmt)] for the directives the program uses: [%Y] is the year
    on four digits, [%m %d %H %M %S] are on two, [%%] is a percent sign;
    every other character is copied.  This is the library's documented
    output; the C library of some platforms prints a year below 1000
    without padding, so the two agree from the year 1000 on. *)
Definition directive (d : datetime) (c : ascii) : string :=
  if Ascii.eqb c "Y" then Str.zfill 4 (Str.of_nat (year d))
  else if Ascii.eqb c "m" then Str.zfill 2 (Str.of_nat (month d))
  else if Ascii.eqb c "d" then Str.zfill 2 (Str.of_nat (day d))
  else if Ascii.eqb c "H" then Str.zfill 2 (Str.of_nat (hour d))
  else if Ascii.eqb c "M" then Str.zfill 2 (Str.of_nat (minute d))
  else if Ascii.eqb c "S" then Str.zfill 2 (Str.of_nat (second d))
  else if Ascii.eqb c "%" then "%"
  else String "%" (Str.of_char c).

Fixpoint strftime (d : datetime) (fmt : string) : string :=
  match fmt with
  | EmptyString => EmptyString
  | String c rest =>
      if Ascii.eqb c "%" then
        match rest with
        | EmptyString => "%"
        | String x rest' => directive d x +:+ strftime d rest'
        end
      else String c (strftime d rest)
  end.

(** ** The outside world *)

(** The answers of the Zabbix API: the result of [host.get], and the result
    of [item.get] for each host id. *)
Record Api : Type := {
  host_get : list (gmap string string);
  item_get : string -> list (gmap string string)
}.

(** The process's view of its environment: the readings [datetime.now()]
    will return, how many of them were consumed, the environment variables
    and the files written so far. *)
Record World : Type := {
  clock : nat -> datetime;
  reads : nat;
  environ : gmap string string;
  files : gmap string string
}.

(** Effectful code: it may raise, and it changes the world either way. *)
Definition M (A : Type) : Type := World -> result A * World.

Definition ret {A : Type} (a : A) : M A := fun w => (Ok a, w).

Definition bindM {A B : Type} (m : M A) (k : A -> M B) : M B :=
  fun w =>
    match m w with
    | (Ok a, w') => k a w'
    | (Raise e, w') => (Raise e, w')
    end.

Definition lift {A : Type} (r : result A) : M A := fun w => (r, w).

Notation "x <~ m ;; k" := (bindM m (fun x => k))
  (at level 100, m at next level, right associativity).

(** The world after one more reading of the clock. *)
Definition tick (w : World) : World :=
  {| clock := clock w; reads := S (reads w);
     environ := environ w; files := files w |}.

(** [datetime.now()] *)
Definition datetime_now : M datetime :=
  fun w => (Ok (clock w (reads w)), tick w).

(** [with open(path, "w") as f: f.write(content)] *)
Definition write_file (path content : string) : M unit :=
  fun w =>
    (Ok tt,
     {| clock := clock w; reads := reads w;
        environ := environ w; files := <[path := content]> (files w) |}).

(** [zabbix_get_hosts()] and [zabbix_get_items(hostid)]: the HTTP exchange
    is the API's business, the function returns the ["result"] member. *)
Definition zabbix_get_hosts (api : Api) : list (gmap string string) :=
  host_get api.

Definition zabbix_get_items (api : Api) (hostid : string)
  : list (gmap string string) :=
  item_get api hostid.

(** ** Record mapper *)

(** The dict appended to [filtered_metrics]. *)
Record ExportRecord : Type := {
  host : string;
  metric : string;
  value : string;
  units : string;
  timestamp : string
}.

(** [record.items()], in insertion order. *)
Definition record_items (r : ExportRecord) : list (string * string) :=
  [("host", host r); ("metric", metric r); ("value", value r);
   ("units", units r); ("timestamp", timestamp r)].

(** The redaction step of the inner loop: it overwrites two keys of the
    item in place. *)
Definition redact_item (item : gmap string string)
  : result (gmap string string) :=
  name <- getitem item "name" ;;
  if should_redact name
  then Ok (<["lastvalue" := "REDACTED"]> (<["name" := "REDACTED"]> item))
  else Ok item.

(** The body of the inner loop of [main]: one item, one record. *)
Definition map_item (timestamp : string) (item : gmap string string)
  : result ExportRecord :=
  item <- redact_item item ;;
  m <- getitem item "name" ;;
  v <- getitem item "lastvalue" ;;
  u <- getitem item "units" ;;
  Ok {| host := "[redacted]"; metric := m; value := v;
        units := u; timestamp := timestamp |}.

(** [for item in items: ... filtered_metrics.append(...)] *)
Fixpoint items_loop (timestamp : string) (items : list (gmap string string))
    (filtered_metrics : list ExportRecord) : result (list ExportRecord) :=
  match items with
  | [] => Ok filtered_metrics
  | item :: rest =>
      r <- map_item timestamp item ;;
      items_loop timestamp rest (filtered_metrics ++ [r])
  end.

(** [for host in hosts: items = zabbix_get_items(host["hostid"]) ...] *)
Fixpoint hosts_loop (api : Api) (timestamp : string)
    (hosts : list (gmap string string))
    (filtered_metrics : list ExportRecord) : result (list ExportRecord) :=
  match hosts with
  | [] => Ok filtered_metrics
  | h :: rest =>
      hostid <- getitem h "hostid" ;;
      filtered_metrics <-
        items_loop timestamp (zabbix_get_items api hostid) filtered_metrics ;;
      hosts_loop api timestamp rest filtered_metrics
  end.

(** ** Summary generator *)

(** The f-string of [generate_readme], with the clock reading and the count
    it interpolates.  The warning sign of the third line (U+26A0 U+FE0F)
    lies outside the modelled code points and stands as the six bytes of
    its UTF-8 encoding, the way the file holds it. *)
Definition readme_template (last_updated : string) (metrics_count : nat)
  : string :=
  Str.join Str.nl [
    "# Zabbix Metrics Archive";
    "";
    "⚠️ **Note**: Sensitive fields like hostnames and system descriptions are redacted.";
    "";
    "## Dataset Info";
    "- Last Updated: " +:+ last_updated;
    "- Total Metrics Collected: " +:+ Str.of_nat metrics_count;
    "- Update Frequency: Every 3 hours";
    "";
    "## Data Structure";
    "```json";
    "{";
    "    " +:+ Str.quoted "host" +:+ ": " +:+ Str.quoted "redacted" +:+ ",";
    "    " +:+ Str.quoted "metric" +:+ ": " +:+ Str.quoted "CPU Usage" +:+ ",";
    "    " +:+ Str.quoted "value" +:+ ": " +:+ Str.quoted "12.5" +:+ ",";
    "    " +:+ Str.quoted "units" +:+ ": " +:+ Str.quoted "%" +:+ ",";
    "    " +:+ Str.quoted "timestamp" +:+ ": "
           +:+ Str.quoted "2024-05-21T12:00:00";
    "}";
    "```";
    ""
  ].

Definition generate_readme (metrics_count : nat) : M string :=
  now <~ datetime_now ;;
  ret (readme_template (strftime now "%Y-%m-%d %H:%M UTC") metrics_count).

(** ** [json.dump(obj, f, indent=2)]

    The encoder as the program drives it: [ensure_ascii] is on, the item
    separator is a comma, the key separator a colon and a space, and the
    value is a list of dicts whose keys and values are strings. *)

Module Json.

(** One lower-case hexadecimal digit. *)
Definition hex_digit (n : nat) : ascii :=
  if n <? 10 then ascii_of_nat (48 + n) else ascii_of_nat (87 + n).

(** ['\\u{0:04x}'.format(n)] *)
Definition escape_u (n : nat) : string :=
  String Str.BACKSLASH
    (String "u"
      (String (hex_digit (n / 4096 mod 16))
        (String (hex_digit (n / 256 mod 16))
          (String (hex_digit (n / 16 mod 16))
            (String (hex_digit (n mod 16)) EmptyString))))).

(** [ESCAPE_DCT] with the fallback of [replace]: what one character of a
    string becomes.  [ESCAPE_ASCII] matches the backslash, the double
    quote and everything outside the range from space to tilde. *)
Definition escape_char (c : ascii) : string :=
  let n := nat_of_ascii c in
  if n =? 92 then String Str.BACKSLASH (Str.of_char Str.BACKSLASH)
  else if n =? 34 then String Str.BACKSLASH (Str.of_char Str.DQUOTE)
  else if n =? 8 then String Str.BACKSLASH "b"
  else if n =? 12 then String Str.BACKSLASH "f"
  else if n =? 10 then String Str.BACKSLASH "n"
  else if n =? 13 then String Str.BACKSLASH "r"
  else if n =? 9 then String Str.BACKSLASH "t"
  else if (32 <=? n) && (n <=? 126) then Str.of_char c
  else escape_u n.

Fixpoint escape (s : string) : string :=
  match s with
  | EmptyString => EmptyString
  | String c s' => escape_char c +:+ escape s'
  end.

(** [py_encode_basestring_ascii] *)
Definition encode_basestring_ascii (s : string) : string :=
  Str.dq +:+ escape s +:+ Str.dq.

Definition item_separator : string := ",".
Definition key_separator : string := ": ".

Definition newline_indent (indent : string) (level : nat) : string :=
  Str.nl +:+ Str.repeat indent level.

(** The loop of [_iterencode_dict] over the items; [first] is its flag. *)
Fixpoint dict_chunks (separator : string) (first : bool)
    (items : list (string * string)) : string :=
  match items with
  | [] => ""
  | (k, v) :: rest =>
      (if first then "" else separator)
      +:+ encode_basestring_ascii k +:+ key_separator
      +:+ encode_basestring_ascii v
      +:+ dict_chunks separator false rest
  end.

Definition iterencode_dict (indent : string) (level : nat)
    (dct : list (string * string)) : string :=
  match dct with
  | [] => "{}"
  | _ =>
      let level := S level in
      let separator := item_separator +:+ newline_indent indent level in
      "{" +:+ newline_indent indent level
      +:+ dict_chunks separator true dct
      +:+ newline_indent indent (level - 1) +:+ "}"
  end.

(** The loop of [_iterencode_list] over the values. *)
Fixpoint list_chunks (indent : string) (level : nat) (separator : string)
    (first : bool) (lst : list (list (string * string))) : string :=
  match lst with
  | [] => ""
  | value :: rest =>
      (if first then "[" +:+ newline_indent indent level else separator)
      +:+ iterencode_dict indent level value
      +:+ list_chunks indent level separator false rest
  end.

Definition iterencode_list (indent : string) (level : nat)
    (lst : list (list (string * string))) : string :=
  match lst with
  | [] => "[]"
  | _ =>
      let level := S level in
      let separator := item_separator +:+ newline_indent indent level in
      list_chunks indent level separator true lst
      +:+ newline_indent indent (level - 1) +:+ "]"
  end.

(** [json.dump(filtered_metrics, f, indent=2)]: an integer indent is that
    many spaces. *)
Definition dump (filtered_metrics : list ExportRecord) (indent : nat)
  : string :=
  iterencode_list (Str.repeat " " indent) 0
                  (map record_items filtered_metrics).

End Json.

(** ** [csv.DictWriter]

    The writer with the default dialect: comma, double quote, CRLF, minimal
    quoting with doubled quotes, no escape character. *)

Module Csv.

Definition delimiter : ascii := ","%char.
Definition quotechar : ascii := Str.DQUOTE.
Definition lineterminator : string := String Str.CR (Str.of_char Str.LF).

(** The characters that make [join_append_data] quote a field. *)
Definition special (c : ascii) : bool :=
  Ascii.eqb c delimiter || Ascii.eqb c quotechar
  || Str.any (Ascii.eqb c) lineterminator.

(** The data of a field with every quote character doubled. *)
Fixpoint double_quotes (field : string) : string :=
  match field with
  | EmptyString => EmptyString
  | String c rest =>
      if Ascii.eqb c quotechar
      then String quotechar (String quotechar (double_quotes rest))
      else String c (double_quotes rest)
  end.

(** [join_append_data] for one field; [quoted] is what its first pass
    computes when the caller did not ask for quotes. *)
Definition join_append (field : string) (quoted : bool) : string :=
  let quoted := quoted || Str.any special field in
  if quoted
  then String quotechar (double_quotes field) +:+ Str.of_char quotechar
  else double_quotes field.

(** [writer.writerow(fields)]: a lone empty field is written quoted. *)
Definition writerow (fields : list string) : string :=
  match fields with
  | [EmptyString] => join_append "" true +:+ lineterminator
  | _ =>
      Str.join (Str.of_char delimiter)
               (map (fun f => join_append f false) fields)
      +:+ lineterminator
  end.

(** [rowdict.get(key, restval)] on a dict given by its items. *)
Fixpoint dict_get (rowdict : list (string * string)) (key restval : string)
  : string :=
  match rowdict with
  | [] => restval
  | (k, v) :: rest =>
      if String.eqb k key then v else dict_get rest key restval
  end.

Definition restval : string := "".

(** [DictWriter._dict_to_list] with [extrasaction="raise"] *)
Definition dict_to_list (fieldnames : list string)
    (rowdict : list (string * string)) : result (list string) :=
  let wrong_fields :=
    List.filter (fun k => negb (existsb (String.eqb k) fieldnames))
                (map fst rowdict) in
  match wrong_fields with
  | [] => Ok (map (fun key => dict_get rowdict key restval) fieldnames)
  | _ => Raise (ValueError "dict contains fields not in fieldnames")
  end.

(** [DictWriter.writeheader]: the row that maps each field name to
    itself. *)
Definition writeheader (fieldnames : list string) : result string :=
  row <- dict_to_list fieldnames (map (fun k => (k, k)) fieldnames) ;;
  Ok (writerow row).

(** [DictWriter.writerows] *)
Fixpoint writerows (fieldnames : list string)
    (rowdicts : list (list (string * string))) : result string :=
  match rowdicts with
  | [] => Ok ""
  | d :: rest =>
      row <- dict_to_list fieldnames d ;;
      tail <- writerows fieldnames rest ;;
      Ok (writerow row +:+ tail)
  end.

End Csv.

(** ** Run orchestrator *)

(** What a run leaves behind: the snapshot and the three documents with the
    names of the two data files. *)
Record Run : Type := {
  filtered_metrics : list ExportRecord;
  readme_content : string;
  json_file : string;
  json_content : string;
  csv_file : string;
  csv_content : string
}.

Definition fieldnames : list string :=
  ["host"; "metric"; "value"; "units"; "timestamp"].

(** The two documents of a snapshot: [json.dump(filtered_metrics, f,
    indent=2)], and the header and the rows a [DictWriter] over the five
    field names writes. *)
Definition json_document (snapshot : list ExportRecord) : string :=
  Json.dump snapshot 2.

Definition csv_document (snapshot : list ExportRecord) : result string :=
  header <- Csv.writeheader fieldnames ;;
  rows <- Csv.writerows fieldnames (map record_items snapshot) ;;
  Ok (header +:+ rows).

(** The [try] block of [main] from line 134 to line 178: the collection
    loops, the summary and the three files.  The API calls are taken to
    have returned the answers of [api] and the files to be writable, so the
    one error this block can raise here is the key error of a subscript of
    the loops; what follows line 178 is the publish step. *)
Definition main (api : Api) : M Run :=
  let hosts := zabbix_get_hosts api in
  now <~ datetime_now ;;
  let timestamp := strftime now "%Y-%m-%d_%H-%M" in
  filtered_metrics <~ lift (hosts_loop api timestamp hosts []) ;;
  readme_content <~ generate_readme (length filtered_metrics) ;;
  _ <~ write_file "README.md" readme_content ;;
  let json_file := "data/" +:+ timestamp +:+ ".json" in
  let json_content := json_document filtered_metrics in
  _ <~ write_file json_file json_content ;;
  let csv_file := "data/" +:+ timestamp +:+ ".csv" in
  csv_content <~ lift (csv_document filtered_metrics) ;;
  _ <~ write_file csv_file csv_content ;;
  ret {| filtered_metrics := filtered_metrics;
         readme_content := readme_content;
         json_file := json_file; json_content := json_content;
         csv_file := csv_file; csv_content := csv_content |}.

(** ** Reading the documents back *)

(** Modelled from the spec: the repository has no code that reads a
    document back into records.  A deserialized record is a dict again; it
    is one of the program's records when it has the five keys. *)
Definition record_of_dict (d : gmap string string) : option ExportRecord :=
  h ← d !! "host";
  m ← d !! "metric";
  v ← d !! "value";
  u ← d !! "units";
  t ← d !! "timestamp";
  Some {| host := h; metric := m; value := v; units := u; timestamp := t |}.

(** Modelled from the spec: the repository has no JSON reader.  This one
    reads the structured document the way a strict JSON parser does, for
    documents that are an array of objects with string members: a lexer
    that skips white space and decodes string literals with their escapes,
    and a parser over its tokens that builds one dict per object. *)
Module JsonReader.

Inductive token : Type :=
| LBracket | RBracket | LBrace | RBrace | Comma | Colon
| Lit (s : string).

Inductive lex_mode : Type :=
| Outside
| InString (acc : string)
| Escape (acc : string)
| Unicode (acc : string) (digits : list nat).

Record lexer : Type := { tokens : list token; lex_state : lex_mode }.

Definition hex_value (c : ascii) : option nat :=
  let n := nat_of_ascii c in
  if (48 <=? n) && (n <=? 57) then Some (n - 48)
  else if (97 <=? n) && (n <=? 102) then Some (n - 87)
  else if (65 <=? n) && (n <=? 70) then Some (n - 55)
  else None.

Definition snoc (acc : string) (c : ascii) : string :=
  acc +:+ Str.of_char c.

Definition emit (l : lexer) (t : token) : lexer :=
  {| tokens := tokens l ++ [t]; lex_state := Outside |}.

Definition goto (l : lexer) (m : lex_mode) : lexer :=
  {| tokens := tokens l; lex_state := m |}.

Definition is_space (n : nat) : bool :=
  (n =? 32) || (n =? 9) || (n =? 10) || (n =? 13).

Definition unescape (n : nat) : option ascii :=
  if n =? 34 then Some Str.DQUOTE
  else if n =? 92 then Some Str.BACKSLASH
  else if n =? 47 then Some "/"%char
  else if n =? 98 then Some "008"%char
  else if n =? 102 then Some "012"%char
  else if n =? 110 then Some Str.LF
  else if n =? 114 then Some Str.CR
  else if n =? 116 then Some "009"%char
  else None.

Definition lex_char (l : lexer) (c : ascii) : option lexer :=
  let n := nat_of_ascii c in
  match lex_state l with
  | Outside =>
      if is_space n then Some l
      else if n =? 91 then Some (emit l LBracket)
      else if n =? 93 then Some (emit l RBracket)
      else if n =? 123 then Some (emit l LBrace)
      else if n =? 125 then Some (emit l RBrace)
      else if n =? 44 then Some (emit l Comma)
      else if n =? 58 then Some (emit l Colon)
      else if n =? 34 then Some (goto l (InString ""))
      else None
  | InString acc =>
      if n =? 34 then Some (emit l (Lit acc))
      else if n =? 92 then Some (goto l (Escape acc))
      else if n <? 32 then None
      else Some (goto l (InString (snoc acc c)))
  | Escape acc =>
      if n =? 117 then Some (goto l (Unicode acc []))
      else
        match unescape n with
        | Some x => Some (goto l (InString (snoc acc x)))
        | None => None
        end
  | Unicode acc digits =>
      match hex_value c with
      | None => None
      | Some d =>
          match digits with
          | [d1; d2; d3] =>
              let cp := ((d1 * 16 + d2) * 16 + d3) * 16 + d in
              if cp <? 256
              then Some (goto l (InString (snoc acc (ascii_of_nat cp))))
              else None
          | _ => Some (goto l (Unicode acc (digits ++ [d])))
          end
      end
  end.

Definition lex_step (st : option lexer) (c : ascii) : option lexer :=
  match st with
  | Some l => lex_char l c
  | None => None
  end.

Definition lex (doc : string) : option (list token) :=
  match Str.feed lex_step
          (Some {| tokens := []; lex_state := Outside |}) doc with
  | Some {| tokens := ts; lex_state := Outside |} => Some ts
  | _ => None
  end.

(** Where the parser stands; [objs] are the finished objects, [cur] the
    members of the open one. *)
Inductive parser : Type :=
| Start
| ArrayOpen
| NeedObject (objs : list (gmap string string))
| ObjectOpen (objs : list (gmap string string))
| AfterKey (objs : list (gmap string string))
           (cur : gmap string string) (key : string)
| NeedValue (objs : list (gmap string string))
            (cur : gmap string string) (key : string)
| AfterMember (objs : list (gmap string string))
              (cur : gmap string string)
| NeedKey (objs : list (gmap string string)) (cur : gmap string string)
| AfterObject (objs : list (gmap string string))
| Finished (objs : list (gmap string string)).

Definition parse_token (p : parser) (t : token) : option parser :=
  match p, t with
  | Start, LBracket => Some ArrayOpen
  | ArrayOpen, RBracket => Some (Finished [])
  | ArrayOpen, LBrace => Some (ObjectOpen [])
  | NeedObject objs, LBrace => Some (ObjectOpen objs)
  | ObjectOpen objs, RBrace => Some (AfterObject (objs ++ [∅]))
  | ObjectOpen objs, Lit k => Some (AfterKey objs ∅ k)
  | AfterKey objs cur k, Colon => Some (NeedValue objs cur k)
  | NeedValue objs cur k, Lit v => Some (AfterMember objs (<[k := v]> cur))
  | AfterMember objs cur, Comma => Some (NeedKey objs cur)
  | AfterMember objs cur, RBrace => Some (AfterObject (objs ++ [cur]))
  | NeedKey objs cur, Lit k => Some (AfterKey objs cur k)
  | AfterObject objs, Comma => Some (NeedObject objs)
  | AfterObject objs, RBracket => Some (Finished objs)
  | _, _ => None
  end.

Definition parse_step (st : option parser) (t : token) : option parser :=
  match st with
  | Some p => parse_token p t
  | None => None
  end.

Definition parse (ts : list token) : option (list (gmap string string)) :=
  match fold_left parse_step ts (Some Start) with
  | Some (Finished objs) => Some objs
  | _ => None
  end.

(** [json.load]: the list of dicts of the document. *)
Definition load (doc : string) : option (list (gmap string string)) :=
  ts ← lex doc; parse ts.

(** The document as a sequence of records. *)
Definition records (doc : string) : option (list ExportRecord) :=
  ds ← load doc; mapM record_of_dict ds.

End JsonReader.

(** Modelled from the spec: the repository has no CSV reader.  This one
    reads the tabular document with the state machine of a reader for the
    writer's dialect (comma, double quote doubled inside a quoted field,
    records ended by CR, LF or CRLF, blank lines skipped); the first record
    names the columns and every further record becomes a dict. *)
Module CsvReader.

Inductive mode : Type :=
| START_RECORD | START_FIELD | IN_FIELD
| IN_QUOTED_FIELD | QUOTE_IN_QUOTED_FIELD | EAT_CRNL.

Record reader : Type := {
  rows : list (list string);
  fields : list string;
  field : string;
  state : mode
}.

Definition add_char (r : reader) (c : ascii) (m : mode) : reader :=
  {| rows := rows r; fields := fields r;
     field := field r +:+ Str.of_char c; state := m |}.

Definition save_field (r : reader) (m : mode) : reader :=
  {| rows := rows r; fields := fields r ++ [field r];
     field := ""; state := m |}.

Definition end_record (r : reader) : reader :=
  {| rows := rows r ++ [fields r ++ [field r]]; fields := [];
     field := ""; state := EAT_CRNL |}.

Definition goto (r : reader) (m : mode) : reader :=
  {| rows := rows r; fields := fields r; field := field r; state := m |}.

Definition is_newline (c : ascii) : bool :=
  Ascii.eqb c Str.CR || Ascii.eqb c Str.LF.

Definition start_field (r : reader) (c : ascii) : reader :=
  if is_newline c then end_record r
  else if Ascii.eqb c Csv.quotechar then goto r IN_QUOTED_FIELD
  else if Ascii.eqb c Csv.delimiter then save_field r START_FIELD
  else add_char r c IN_FIELD.

Definition step (r : reader) (c : ascii) : reader :=
  match state r with
  | START_RECORD | EAT_CRNL =>
      if is_newline c then goto r EAT_CRNL else start_field r c
  | START_FIELD => start_field r c
  | IN_FIELD =>
      if is_newline c then end_record r
      else if Ascii.eqb c Csv.delimiter then save_field r START_FIELD
      else add_char r c IN_FIELD
  | IN_QUOTED_FIELD =>
      if Ascii.eqb c Csv.quotechar then goto r QUOTE_IN_QUOTED_FIELD
      else add_char r c IN_QUOTED_FIELD
  | QUOTE_IN_QUOTED_FIELD =>
      if Ascii.eqb c Csv.quotechar then add_char r c IN_QUOTED_FIELD
      else if Ascii.eqb c Csv.delimiter then save_field r START_FIELD
      else if is_newline c then end_record r
      else add_char r c IN_FIELD
  end.

(** The end of the input closes an unfinished record. *)
Definition finish (r : reader) : list (list string) :=
  match state r with
  | START_RECORD | EAT_CRNL => rows r
  | _ => rows (end_record r)
  end.

Definition read (doc : string) : list (list string) :=
  finish (Str.feed step
            {| rows := []; fields := []; field := "";
               state := START_RECORD |} doc).

(** [dict(zip(fieldnames, row))] *)
Definition zip_dict (names row : list string) : gmap string string :=
  fold_left (fun d kv => <[fst kv := snd kv]> d) (combine names row) ∅.

(** [csv.DictReader]: one dict per record after the header. *)
Definition load (doc : string) : list (gmap string string) :=
  match read doc with
  | [] => []
  | names :: data => map (zip_dict names) data
  end.

(** The document as a sequence of records. *)
Definition records (doc : string) : option (list ExportRecord) :=
  mapM record_of_dict (load doc).

End CsvReader.

(** ** The documents as the specification lays them out *)

Module Layout.

(** A JSON string literal. *)
Definition literal (s : string) : string :=
  Str.quoted (Json.escape s).

(** One member line of an object of the array: four spaces, the key, a
    colon and a space, the value. *)
Definition member (key val : string) : string :=
  "    " +:+ literal key +:+ ": " +:+ literal val.

(** An object of the array: its braces and its five members in the order
    host, metric, value, units, timestamp, one per line, the closing
    brace two spaces in. *)
Definition object (r : ExportRecord) : string :=
  "{" +:+ Str.nl
  +:+ member "host" (host r) +:+ "," +:+ Str.nl
  +:+ member "metric" (metric r) +:+ "," +:+ Str.nl
  +:+ member "value" (value r) +:+ "," +:+ Str.nl
  +:+ member "units" (units r) +:+ "," +:+ Str.nl
  +:+ member "timestamp" (timestamp r) +:+ Str.nl
  +:+ "  }".

(** The array: the objects in input order, each two spaces in, a comma
    after each but the last. *)
Definition array (snapshot : list ExportRecord) : string :=
  match snapshot with
  | [] => "[]"
  | _ =>
      "[" +:+ Str.nl +:+ "  "
      +:+ Str.join ("," +:+ Str.nl +:+ "  ") (map object snapshot)
      +:+ Str.nl +:+ "]"
  end.

(** A CSV cell: quoted, with its quotes doubled, when it holds a comma, a
    double quote, a carriage return or a line feed; verbatim otherwise. *)
Definition needs_quotes (s : string) : bool :=
  Str.any (fun c => Ascii.eqb c ","%char || Ascii.eqb c Str.DQUOTE
                    || Ascii.eqb c Str.CR || Ascii.eqb c Str.LF) s.

Definition cell (s : string) : string :=
  if needs_quotes s then Str.quoted (Csv.double_quotes s) else s.

Definition CRLF : string := String Str.CR (Str.of_char Str.LF).

(** A CSV line: the cells between commas, then CRLF. *)
Definition line (cells : list string) : string :=
  Str.join "," (map cell cells) +:+ CRLF.

Definition cells (r : ExportRecord) : list string :=
  [host r; metric r; value r; units r; timestamp r].

Fixpoint lines (snapshot : list ExportRecord) : string :=
  match snapshot with
  | [] => ""
  | r :: rest => line (cells r) +:+ lines rest
  end.

(** The table: the header line, then one line per record in input
    order. *)
Definition table (snapshot : list ExportRecord) : string :=
  "host,metric,value,units,timestamp" +:+ CRLF +:+ lines snapshot.

End Layout.

(** The dict a reader builds for a record. *)
Definition dict_of_record (r : ExportRecord) : gmap string string :=
  <["timestamp" := timestamp r]> (<["units" := units r]>
    (<["value" := value r]> (<["metric" := metric r]>
      (<["host" := host r]> ∅)))).

(** ** Notions the properties are stated with *)

(** A record the mapper yields for some item under the timestamp [ts]. *)
Definition mapped (ts : string) (r : ExportRecord) : Prop :=
  exists item, map_item ts item = Ok r.


(** The state of the world after a run that wrote its three files. *)
Definition after_run (w : World) (run : Run) : World :=
  {| clock := clock w; reads := S (S (reads w)); environ := environ w;
     files := <[csv_file run := csv_content run]>
                (<[json_file run := json_content run]>
                   (<["README.md" := readme_content run]> (files w))) |}.

(** What [main] returns, from the snapshot its loops collect. *)
Definition run_of (w : World) (snapshot : list ExportRecord)
    (csv : string) : Run :=
  let timestamp := strftime (clock w (reads w)) "%Y-%m-%d_%H-%M" in
  {| filtered_metrics := snapshot;
     readme_content :=
       readme_template
         (strftime (clock w (S (reads w))) "%Y-%m-%d %H:%M UTC")
         (length snapshot);
     json_file := "data/" +:+ timestamp +:+ ".json";
     json_content := json_document snapshot;
     csv_file := "data/" +:+ timestamp +:+ ".csv";
     csv_content := csv |}.

(** ** Reader states and token sequences the proofs name *)

(** A CSV reader with finished rows [R], the fields [F] of the open
    record, the characters [a] of the open field, in mode [m]. *)
Definition Rd (R : list (list string)) (F : list string) (a : string)
    (m : CsvReader.mode) : CsvReader.reader :=
  {| CsvReader.rows := R; CsvReader.fields := F;
     CsvReader.field := a; CsvReader.state := m |}.

(** A JSON lexer that emitted [ts] and is in mode [m]. *)
Definition Lx (ts : list JsonReader.token) (m : JsonReader.lex_mode)
  : option JsonReader.lexer :=
  Some {| JsonReader.tokens := ts; JsonReader.lex_state := m |}.

(** The tokens of one object of the array, and of the array. *)
Definition object_tokens (r : ExportRecord) : list JsonReader.token :=
  [JsonReader.LBrace;
   JsonReader.Lit "host"; JsonReader.Colon; JsonReader.Lit (host r);
   JsonReader.Comma;
   JsonReader.Lit "metric"; JsonReader.Colon; JsonReader.Lit (metric r);
   JsonReader.Comma;
   JsonReader.Lit "value"; JsonReader.Colon; JsonReader.Lit (value r);
   JsonReader.Comma;
   JsonReader.Lit "units"; JsonReader.Colon; JsonReader.Lit (units r);
   JsonReader.Comma;
   JsonReader.Lit "timestamp"; JsonReader.Colon;
   JsonReader.Lit (timestamp r);
   JsonReader.RBrace].

Fixpoint more_objects (rest : list ExportRecord) : list JsonReader.token :=
  match rest with
  | [] => []
  | r :: rest' => JsonReader.Comma :: object_tokens r ++ more_objects rest'
  end.

Definition array_tokens (snapshot : list ExportRecord)
  : list JsonReader.token :=
  match snapshot with
  | [] => [JsonReader.LBracket; JsonReader.RBracket]
  | r :: rest =>
      JsonReader.LBracket :: object_tokens r ++ more_objects rest
      ++ [JsonReader.RBracket]
  end.

(** The modes in which the CSV reader expects the first character of a
    field. *)
Definition at_field_start (m : CsvReader.mode) : Prop :=
  m = CsvReader.START_RECORD \/ m = CsvReader.START_FIELD
  \/ m = CsvReader.EAT_CRNL.

(** The modes in which the reader can stand after the cell [s], begun in
    mode [m]. *)
Definition after_cell (s : string) (m m' : CsvReader.mode) : Prop :=
  m' = CsvReader.IN_FIELD \/ m' = CsvReader.QUOTE_IN_QUOTED_FIELD
  \/ (s = "" /\ m' = m).

(** ** Sample inputs *)

(** The redacted item of the specification's scenario and its record. *)
Definition sample_item : gmap string string :=
  <["name" := "Host Name"]> (<["lastvalue" := "srv1"]>
    (<["units" := ""]> (<["lastclock" := "0"]> ∅))).

Definition sample_record : ExportRecord :=
  {| host := "[redacted]"; metric := "REDACTED"; value := "REDACTED";
     units := ""; timestamp := "2024-05-21_12-00" |}.

(** The scenario of the specification: one host, whose own name is a
    sensitive one, with a redacted and a plain item, on 21 May 2024 at
    noon. *)
Definition cpu_item : gmap string string :=
  <["name" := "CPU Usage"]> (<["lastvalue" := "12.5"]>
    (<["units" := "%"]> (<["lastclock" := "0"]> ∅))).

Definition cpu_record : ExportRecord :=
  {| host := "[redacted]"; metric := "CPU Usage"; value := "12.5";
     units := "%"; timestamp := "2024-05-21_12-00" |}.

Definition sample_api : Api :=
  {| host_get := [<["hostid" := "10084"]> (<["host" := "Host Name"]> ∅)];
     item_get := fun _ => [sample_item; cpu_item] |}.

Definition noon : datetime :=
  {| year := 2024; month := 5; day := 21;
     hour := 12; minute := 0; second := 0 |}.

Definition sample_world : World :=
  {| clock := fun _ => noon; reads := 0; environ := ∅; files := ∅ |}.

Definition sample_run : Run :=
  run_of sample_world [sample_record; cpu_record]
         (Layout.table [sample_record; cpu_record]).

(** An API that returns no host. *)
Definition empty_api : Api :=
  {| host_get := []; item_get := fun _ => [sample_item] |}.

(** An item the API sends without units. *)
Definition item_without_units : gmap string string :=
  <["name" := "CPU Usage"]> (<["lastvalue" := "12.5"]> ∅).

(** ** The publish step

    The end of the [try] block of [main]: the process moves to the
    repository and hands four command lines to the shell, one after the
    other; it does not look at their exit status. *)

(** The arguments of the four [os.system] calls, in order. *)
Definition git_commands (timestamp json_file csv_file : string)
  : list string :=
  ["git pull --rebase origin main";
   "git add " +:+ json_file +:+ " " +:+ csv_file +:+ " README.md";
   "git commit -m " +:+ Str.quoted ("Zabbix metrics update: " +:+ timestamp);
   "git push origin main"].

(** The command lines of a run, from the names [main] computes. *)
Definition publish (now : datetime) : list string :=
  let timestamp := strftime now "%Y-%m-%d_%H-%M" in
  git_commands timestamp ("data/" +:+ timestamp +:+ ".json")
               ("data/" +:+ timestamp +:+ ".csv").

(** ** Notions the further properties are stated with *)

(** [all(f(c) for c in s)] *)
Fixpoint all_chars (f : ascii -> bool) (s : string) : bool :=
  match s with
  | EmptyString => true
  | String c s' => f c && all_chars f s'
  end.

Definition is_digit (c : ascii) : bool :=
  let n := nat_of_ascii c in (48 <=? n) && (n <=? 57).

(** The characters of a run timestamp: digits, hyphen, underscore. *)
Definition timestamp_char (c : ascii) : bool :=
  is_digit c || Ascii.eqb c "-" || Ascii.eqb c "_".

(** Printable ASCII, and the line feed. *)
Definition plain_ascii (c : ascii) : bool :=
  let n := nat_of_ascii c in ((32 <=? n) && (n <=? 126)) || (n =? 10).

(** Letters, digits, space and the punctuation of the fixed command texts:
    no character the shell expands, splits on or substitutes, the double
    quote apart. *)
Definition command_char (c : ascii) : bool :=
  let n := nat_of_ascii c in
  ((48 <=? n) && (n <=? 57)) || ((65 <=? n) && (n <=? 90))
  || ((97 <=? n) && (n <=? 122))
  || (n =? 32) || (n =? 45) || (n =? 46) || (n =? 47) || (n =? 58)
  || (n =? 95) || (n =? 34).

(** A reading of the clock with a four-digit year: the fields a [datetime]
    admits, the year from 1000 on. *)
Definition four_digit_year (d : datetime) : Prop :=
  1000 <= year d <= 9999 /\ 1 <= month d <= 12 /\ 1 <= day d <= 31
  /\ hour d <= 23 /\ minute d <= 59 /\ second d <= 59.

(** Two readings of the clock within the same minute. *)
Definition same_minute (d1 d2 : datetime) : Prop :=
  year d1 = year d2 /\ month d1 = month d2 /\ day d1 = day d2
  /\ hour d1 = hour d2 /\ minute d1 = minute d2.

(** A host object that has an id, and the items the API returns for the
    hosts of a list, host after host. *)
Definition has_hostid (h : gmap string string) : Prop :=
  is_Some (h !! "hostid").

Definition all_items (api : Api) (hosts : list (gmap string string))
  : list (gmap string string) :=
  flat_map (fun h => match h !! "hostid" with
                     | Some hostid => zabbix_get_items api hostid
                     | None => []
                     end) hosts.

(** An item the mapper accepts: it has a name and units, and a last value
    unless its name is redacted. *)
Definition mappable (item : gmap string string) : Prop :=
  exists name,
    item !! "name" = Some name
    /\ is_Some (item !! "units")
    /\ (should_redact name = true \/ is_Some (item !! "lastvalue")).

(** Two items that agree on the three keys the mapper reads. *)
Definition same_readings (item item' : gmap string string) : Prop :=
  item !! "name" = item' !! "name"
  /\ item !! "lastvalue" = item' !! "lastvalue"
  /\ item !! "units" = item' !! "units".

(** Another item with a sensitive name and the same empty units. *)
Definition ip_item : gmap string string :=
  <["name" := "IP Address"]> (<["lastvalue" := "10.0.0.7"]>
    (<["units" := ""]> (<["itemid" := "23296"]> ∅))).

(** ** The requests

    The ["output"] member of the parameters [zabbix_get_hosts] and
    [zabbix_get_items] send: the properties they ask the API to return for
    every host and for every item. *)
Definition host_get_output : list string := ["hostid"; "host"].

Definition item_get_output : list string :=
  ["itemid"; "name"; "lastvalue"; "units"; "lastclock"].

(** An object that carries every key of a list. *)
Definition has_keys (keys : list string) (d : gmap string string) : Prop :=
  Forall (fun k => is_Some (d !! k)) keys.

(** An item and a host object with every requested property. *)
Definition full_item : gmap string string :=
  <["itemid" := "23296"]> (<["name" := "CPU Usage"]>
    (<["lastvalue" := "12.5"]> (<["units" := "%"]>
      (<["lastclock" := "1716292800"]> ∅)))).

Definition full_host : gmap string string :=
  <["hostid" := "10084"]> (<["host" := "Host Name"]> ∅).

(** The sample world one minute later. *)
Definition later_world : World :=
  {| clock := fun _ => {| year := 2024; month := 5; day := 21;
                          hour := 12; minute := 1; second := 0 |};
     reads := 0; environ := ∅; files := ∅ |}.

(** * Properties *)

(** ** Strings *)

Lemma app_empty_r (s : string) : s +:+ "" = s.
Proof. induction s as [|c s IH]; simpl; [reflexivity | now rewrite IH]. Qed.

Lemma app_assoc_str (a b c : string) : (a +:+ b) +:+ c = a +:+ b +:+ c.
Proof. induction a as [|x a IH]; simpl; [reflexivity | now rewrite IH]. Qed.

Lemma startswith_spec (p s : string) :
  Str.startswith p s = true <-> exists post, s = p +:+ post.
Proof.
  revert s. induction p as [|a p IH]; intros s; simpl.
  - split; [intros _; now exists s | reflexivity].
  - destruct s as [|b s].
    + split; [discriminate | intros [post H]; discriminate].
    + rewrite andb_true_iff, Ascii.eqb_eq, IH. split.
      * intros [-> [post ->]]. now exists post.
      * intros [post H]. injection H as -> ->.
        split; [reflexivity | now exists post].
Qed.

Lemma contains_spec (p s : string) :
  Str.contains p s = true <-> Str.occurs_in p s.
Proof.
  unfold Str.occurs_in. induction s as [|b s IH]; simpl.
  - rewrite orb_false_r, startswith_spec. split.
    + intros [post H]. now exists "", post.
    + intros [pre [post H]]. destruct pre; [now exists post | discriminate].
  - rewrite orb_true_iff, startswith_spec, IH. split.
    + intros [[post H] | [pre [post H]]].
      * now exists "", post.
      * exists (String b pre), post. simpl. now rewrite H.
    + intros [pre [post H]]. destruct pre as [|c pre].
      * left. now exists post.
      * right. simpl in H. injection H as _ ->. now exists pre, post.
Qed.

(** ** Redaction policy *)

Lemma REDACTED_FIELDS_elems (f : string) :
  f ∈ REDACTED_FIELDS <->
  In f ["system name"; "system description"; "host name";
        "ip address"; "mac address"; "serial number"; "redacted"].
Proof.
  unfold REDACTED_FIELDS.
  rewrite !elem_of_union, !elem_of_singleton. unfold In.
  split; intros H; decompose [or] H; subst; tauto.
Qed.

Lemma existsb_elements (X : gset string) (P : string -> bool) :
  existsb P (elements X) = true <-> exists x, x ∈ X /\ P x = true.
Proof.
  rewrite existsb_exists. split; intros [x [Hin HP]]; exists x; split; trivial.
  - apply elem_of_elements, list_elem_of_In, Hin.
  - apply list_elem_of_In, elem_of_elements, Hin.
Qed.

Lemma should_redact_iff (name : string) :
  should_redact name = true <->
  exists field,
    In field ["system name"; "system description"; "host name";
              "ip address"; "mac address"; "serial number"; "redacted"]
    /\ Str.occurs_in field (Str.lower name).
Proof.
  unfold should_redact. rewrite existsb_elements.
  split; intros [f [Hin Hc]]; exists f;
    (split; [apply REDACTED_FIELDS_elems; exact Hin |]);
    apply contains_spec; exact Hc.
Qed.

(** C1.  [should_redact] answers true exactly for the names whose
    lower-cased form contains one of the seven sensitive substrings, at any
    position, and false for every other name; "IP Address Pool Usage" and
    "Host Name Extended" are redacted. *)
Theorem should_redact_substring :
  (forall name : string,
      (should_redact name = true <->
       exists field,
         In field ["system name"; "system description"; "host name";
                   "ip address"; "mac address"; "serial number"; "redacted"]
         /\ Str.occurs_in field (Str.lower name))
      /\ (should_redact name = false <->
          forall field,
            In field ["system name"; "system description"; "host name";
                      "ip address"; "mac address"; "serial number";
                      "redacted"] ->
            ~ Str.occurs_in field (Str.lower name)))
  /\ should_redact "IP Address Pool Usage" = true
  /\ should_redact "Host Name Extended" = true.
Proof.
  split; [| split; vm_compute; reflexivity].
  intros name. split; [apply should_redact_iff |].
  rewrite <- not_true_iff_false, should_redact_iff. split.
  - intros Hno field Hin Hocc. apply Hno. exists field. split; assumption.
  - intros Hno [field [Hin Hocc]]. exact (Hno field Hin Hocc).
Qed.

(** ** Record mapper *)

Lemma getitem_Ok (d : gmap string string) (k v : string) :
  getitem d k = Ok v <-> d !! k = Some v.
Proof.
  unfold getitem. destruct (d !! k); split; intros H;
    try discriminate; injection H as ->; reflexivity.
Qed.

(** What the mapper does, by the keys the item has. *)
Lemma map_item_cases (ts : string) (item : gmap string string) :
  map_item ts item =
  match item !! "name" with
  | None => Raise (KeyError "name")
  | Some name =>
      if should_redact name then
        match item !! "units" with
        | None => Raise (KeyError "units")
        | Some u =>
            Ok {| host := "[redacted]"; metric := "REDACTED";
                  value := "REDACTED"; units := u; timestamp := ts |}
        end
      else
        match item !! "lastvalue" with
        | None => Raise (KeyError "lastvalue")
        | Some v =>
            match item !! "units" with
            | None => Raise (KeyError "units")
            | Some u =>
                Ok {| host := "[redacted]"; metric := name;
                      value := v; units := u; timestamp := ts |}
            end
        end
  end.
Proof.
  unfold map_item, redact_item, getitem.
  destruct (item !! "name") as [name|] eqn:Hname; simpl; [| reflexivity].
  destruct (should_redact name); simpl.
  - rewrite lookup_insert_ne by discriminate.
    rewrite lookup_insert_eq. simpl.
    rewrite lookup_insert_eq. simpl.
    rewrite !lookup_insert_ne by discriminate.
    destruct (item !! "units"); reflexivity.
  - rewrite Hname. simpl.
    destruct (item !! "lastvalue"); simpl; [| reflexivity].
    destruct (item !! "units"); reflexivity.
Qed.

(** C2.  A record the mapper produces for an item whose name matches the
    redaction policy has metric and value "REDACTED"; for an item whose name
    does not match, metric and value are the item's name and last value;
    either way the units are the item's units. *)
Theorem map_item_redaction (ts : string) (item : gmap string string)
    (r : ExportRecord) :
  map_item ts item = Ok r ->
  exists name,
    item !! "name" = Some name
    /\ item !! "units" = Some (units r)
    /\ (should_redact name = true ->
        metric r = "REDACTED" /\ value r = "REDACTED")
    /\ (should_redact name = false ->
        metric r = name /\ item !! "lastvalue" = Some (value r)).
Proof.
  rewrite map_item_cases.
  destruct (item !! "name") as [name|]; [| discriminate].
  intros H. exists name. split; [reflexivity |].
  destruct (should_redact name).
  - destruct (item !! "units") as [u|]; [| discriminate].
    injection H as <-. simpl.
    repeat split; try reflexivity; discriminate.
  - destruct (item !! "lastvalue") as [v|]; [| discriminate].
    destruct (item !! "units") as [u|]; [| discriminate].
    injection H as <-. simpl.
    repeat split; try reflexivity; discriminate.
Qed.

Lemma map_item_redaction_witness :
  exists name,
    sample_item !! "name" = Some name
    /\ sample_item !! "units" = Some (units sample_record)
    /\ (should_redact name = true ->
        metric sample_record = "REDACTED" /\ value sample_record = "REDACTED")
    /\ (should_redact name = false ->
        metric sample_record = name
        /\ sample_item !! "lastvalue" = Some (value sample_record)).
Proof.
  apply (map_item_redaction "2024-05-21_12-00" sample_item sample_record).
  vm_compute. reflexivity.
Defined.

(** C7 as the specification states it fails: an item without units makes
    the mapper raise, it does not yield a record with empty units. *)
Lemma map_item_absent_units_raises :
  item_without_units !! "units" = None
  /\ map_item "2024-05-21_12-00" item_without_units = Raise (KeyError "units")
  /\ ~ (exists r, map_item "2024-05-21_12-00" item_without_units = Ok r
                  /\ units r = "").
Proof.
  assert (H : map_item "2024-05-21_12-00" item_without_units
              = Raise (KeyError "units")) by (vm_compute; reflexivity).
  split; [vm_compute; reflexivity |]. split; [exact H |].
  intros [r [Hr _]]. rewrite H in Hr. discriminate.
Qed.

Ltac absent_key k H :=
  exists k; split; [reflexivity | split; [exact H | unfold In; tauto]].

(** C7, amended.  The mapper yields a record, and then exactly one, for the
    items that carry the key name, the key units and, unless the name is
    redacted, the key lastvalue; the record's units are the item's.  For
    every other item it raises the key error of an absent key. *)
Theorem map_item_defined (ts : string) (item : gmap string string) :
  ((exists r, map_item ts item = Ok r) <->
   exists name,
     item !! "name" = Some name
     /\ is_Some (item !! "units")
     /\ (should_redact name = true \/ is_Some (item !! "lastvalue")))
  /\ (forall r r', map_item ts item = Ok r -> map_item ts item = Ok r' ->
                   r = r')
  /\ (forall r, map_item ts item = Ok r -> item !! "units" = Some (units r))
  /\ (forall e, map_item ts item = Raise e ->
        exists key,
          e = KeyError key /\ item !! key = None
          /\ In key ["name"; "lastvalue"; "units"]).
Proof.
  rewrite map_item_cases. repeat split.
  - intros [r H].
    destruct (item !! "name") as [name|]; [| discriminate].
    exists name. split; [reflexivity |].
    destruct (should_redact name).
    + destruct (item !! "units"); [| discriminate]. split; eauto.
    + destruct (item !! "lastvalue"); [| discriminate].
      destruct (item !! "units"); [| discriminate]. split; eauto.
  - intros [name [-> [[u ->] Hv]]].
    destruct (should_redact name); [eauto |].
    destruct Hv as [Hv | [v ->]]; [discriminate | eauto].
  - intros r r' H H'. rewrite H in H'. injection H' as ->. reflexivity.
  - intros r H.
    destruct (item !! "name") as [name|]; [| discriminate].
    destruct (should_redact name).
    + destruct (item !! "units"); [| discriminate]. injection H as <-.
      reflexivity.
    + destruct (item !! "lastvalue"); [| discriminate].
      destruct (item !! "units"); [| discriminate]. injection H as <-.
      reflexivity.
  - intros e H.
    destruct (item !! "name") as [name|] eqn:Hn.
    + destruct (should_redact name).
      * destruct (item !! "units") eqn:Hu; [discriminate |].
        injection H as <-. absent_key "units" Hu.
      * destruct (item !! "lastvalue") eqn:Hv.
        -- destruct (item !! "units") eqn:Hu; [discriminate |].
           injection H as <-. absent_key "units" Hu.
        -- injection H as <-. absent_key "lastvalue" Hv.
    + injection H as <-. absent_key "name" Hn.
Qed.

(** A produced record is either the redacted one or has a metric the policy
    lets through. *)
Lemma map_item_metric (ts : string) (item : gmap string string)
    (r : ExportRecord) :
  map_item ts item = Ok r ->
  (metric r = "REDACTED" /\ value r = "REDACTED")
  \/ should_redact (metric r) = false.
Proof.
  rewrite map_item_cases.
  destruct (item !! "name") as [name|]; [| discriminate].
  destruct (should_redact name) eqn:Hs.
  - destruct (item !! "units"); [| discriminate]. intros H.
    injection H as <-. left. split; reflexivity.
  - destruct (item !! "lastvalue"); [| discriminate].
    destruct (item !! "units"); [| discriminate]. intros H.
    injection H as <-. right. exact Hs.
Qed.

Lemma should_redact_marker : should_redact "REDACTED" = true.
Proof. vm_compute. reflexivity. Qed.

(** C10.  The marker is itself a redacted name, so mapping is idempotent on
    what it produces: an item carrying a produced record's metric and value
    as its name and last value is mapped to the same metric and value. *)
Theorem map_item_idempotent (ts : string) (item : gmap string string)
    (r : ExportRecord) :
  map_item ts item = Ok r ->
  should_redact "REDACTED" = true
  /\ forall (ts' : string) (item' : gmap string string),
       item' !! "name" = Some (metric r) ->
       item' !! "lastvalue" = Some (value r) ->
       is_Some (item' !! "units") ->
       exists r', map_item ts' item' = Ok r'
                  /\ metric r' = metric r /\ value r' = value r.
Proof.
  intros H. split; [exact should_redact_marker |].
  intros ts' item' Hn Hv [u Hu].
  rewrite map_item_cases, Hn, Hv, Hu.
  destruct (map_item_metric ts item r H) as [[Hm Hval] | Hs].
  - rewrite Hm, Hval, should_redact_marker. eauto.
  - rewrite Hs. eauto.
Qed.

Lemma map_item_idempotent_witness :
  should_redact "REDACTED" = true
  /\ forall (ts' : string) (item' : gmap string string),
       item' !! "name" = Some (metric sample_record) ->
       item' !! "lastvalue" = Some (value sample_record) ->
       is_Some (item' !! "units") ->
       exists r', map_item ts' item' = Ok r'
                  /\ metric r' = metric sample_record
                  /\ value r' = value sample_record.
Proof.
  apply (map_item_idempotent "2024-05-21_12-00" sample_item sample_record).
  vm_compute. reflexivity.
Defined.

(** ** The loops of [main] *)

Lemma map_item_constants (ts : string) (item : gmap string string)
    (r : ExportRecord) :
  map_item ts item = Ok r -> host r = "[redacted]" /\ timestamp r = ts.
Proof.
  rewrite map_item_cases.
  destruct (item !! "name") as [name|]; [| discriminate].
  destruct (should_redact name).
  - destruct (item !! "units"); [| discriminate].
    intros H. injection H as <-. split; reflexivity.
  - destruct (item !! "lastvalue"); [| discriminate].
    destruct (item !! "units"); [| discriminate].
    intros H. injection H as <-. split; reflexivity.
Qed.

Lemma items_loop_appends (ts : string) (items : list (gmap string string)) :
  forall acc out,
    items_loop ts items acc = Ok out ->
    exists new, out = acc ++ new /\ Forall (mapped ts) new
                /\ length new = length items.
Proof.
  induction items as [|item rest IH]; intros acc out; simpl.
  - intros H. injection H as <-. exists []. rewrite app_nil_r.
    repeat split. constructor.
  - destruct (map_item ts item) as [r|e] eqn:Hr; simpl; [| discriminate].
    intros H. destruct (IH _ _ H) as [new [-> [Hall Hlen]]].
    exists (r :: new). rewrite <- app_assoc. simpl. repeat split.
    + constructor; [exists item; exact Hr | exact Hall].
    + rewrite Hlen. reflexivity.
Qed.

Lemma hosts_loop_appends (api : Api) (ts : string)
    (hosts : list (gmap string string)) :
  forall acc out,
    hosts_loop api ts hosts acc = Ok out ->
    exists new, out = acc ++ new /\ Forall (mapped ts) new.
Proof.
  induction hosts as [|h rest IH]; intros acc out; simpl.
  - intros H. injection H as <-. exists []. rewrite app_nil_r.
    split; [reflexivity | constructor].
  - destruct (getitem h "hostid") as [hostid|e]; simpl; [| discriminate].
    destruct (items_loop ts (zabbix_get_items api hostid) acc)
      as [acc'|e] eqn:Hitems; simpl; [| discriminate].
    intros H.
    destruct (items_loop_appends _ _ _ _ Hitems) as [new1 [-> [Hall1 _]]].
    destruct (IH _ _ H) as [new2 [-> Hall2]].
    exists (new1 ++ new2). rewrite <- app_assoc. split; [reflexivity |].
    apply Forall_app. split; assumption.
Qed.


(** ** Running [main] *)

Lemma main_Ok (api : Api) (w : World) (snapshot : list ExportRecord)
    (csv : string) :
  hosts_loop api (strftime (clock w (reads w)) "%Y-%m-%d_%H-%M")
             (host_get api) [] = Ok snapshot ->
  csv_document snapshot = Ok csv ->
  main api w = (Ok (run_of w snapshot csv), after_run w (run_of w snapshot csv)).
Proof.
  intros Hloop Hcsv.
  unfold main, generate_readme, bindM, lift, datetime_now, write_file, ret,
    zabbix_get_hosts, tick.
  cbn [clock reads environ files]. rewrite Hloop.
  cbn [clock reads environ files]. rewrite Hcsv. reflexivity.
Qed.

Lemma main_inv (api : Api) (w w' : World) (run : Run) :
  main api w = (Ok run, w') ->
  exists snapshot csv,
    hosts_loop api (strftime (clock w (reads w)) "%Y-%m-%d_%H-%M")
               (host_get api) [] = Ok snapshot
    /\ csv_document snapshot = Ok csv
    /\ run = run_of w snapshot csv /\ w' = after_run w run.
Proof.
  unfold main, generate_readme, bindM, lift, datetime_now, write_file, ret,
    zabbix_get_hosts, tick.
  cbn [clock reads environ files].
  destruct (hosts_loop api _ (host_get api) []) as [snapshot|e] eqn:Hloop;
    [| discriminate].
  cbn [clock reads environ files].
  destruct (csv_document snapshot) as [csv|e] eqn:Hcsv; [| discriminate].
  intros H. injection H as <- <-. exists snapshot, csv.
  split; [reflexivity |]. split; [exact Hcsv |]. split; reflexivity.
Qed.

(** ** The snapshot serializer *)

Lemma special_chars (c : ascii) :
  Csv.special c
  = (Ascii.eqb c ","%char || Ascii.eqb c Str.DQUOTE
     || Ascii.eqb c Str.CR || Ascii.eqb c Str.LF).
Proof.
  unfold Csv.special, Csv.delimiter, Csv.quotechar, Csv.lineterminator.
  cbn [Str.any Str.of_char]. rewrite orb_false_r, orb_assoc. reflexivity.
Qed.

Lemma needs_quotes_special (s : string) :
  Layout.needs_quotes s = Str.any Csv.special s.
Proof.
  unfold Layout.needs_quotes.
  induction s as [|c s IH]; cbn [Str.any]; [reflexivity |].
  rewrite IH, special_chars. reflexivity.
Qed.

Lemma double_quotes_plain (s : string) :
  Str.any Csv.special s = false -> Csv.double_quotes s = s.
Proof.
  induction s as [|c s IH]; cbn [Str.any Csv.double_quotes];
    [reflexivity |].
  rewrite orb_false_iff. intros [Hc Hs].
  unfold Csv.special in Hc. rewrite !orb_false_iff in Hc.
  destruct Hc as [[_ Hq] _]. rewrite Hq, (IH Hs). reflexivity.
Qed.

Lemma join_append_cell (s : string) :
  Csv.join_append s false = Layout.cell s.
Proof.
  unfold Csv.join_append, Layout.cell. rewrite needs_quotes_special.
  cbn [orb]. destruct (Str.any Csv.special s) eqn:Hs.
  - reflexivity.
  - apply double_quotes_plain, Hs.
Qed.

Lemma map_join_append (l : list string) :
  map (fun f => Csv.join_append f false) l = map Layout.cell l.
Proof.
  induction l as [|x l IH]; cbn [map]; [reflexivity |].
  rewrite join_append_cell, IH. reflexivity.
Qed.

Lemma writerow_line (a b : string) (l : list string) :
  Csv.writerow (a :: b :: l) = Layout.line (a :: b :: l).
Proof.
  unfold Csv.writerow, Layout.line. rewrite map_join_append.
  destruct a; reflexivity.
Qed.

Lemma dict_to_list_record (r : ExportRecord) :
  Csv.dict_to_list fieldnames (record_items r) = Ok (Layout.cells r).
Proof. destruct r. reflexivity. Qed.

Lemma writerows_lines (snapshot : list ExportRecord) :
  Csv.writerows fieldnames (map record_items snapshot)
  = Ok (Layout.lines snapshot).
Proof.
  induction snapshot as [|r rest IH]; cbn [map Csv.writerows Layout.lines];
    [reflexivity |].
  rewrite dict_to_list_record, IH. cbn [bind].
  unfold Layout.cells. rewrite writerow_line. reflexivity.
Qed.

Lemma csv_document_table (snapshot : list ExportRecord) :
  csv_document snapshot = Ok (Layout.table snapshot).
Proof.
  unfold csv_document. rewrite writerows_lines.
  reflexivity.
Qed.

Lemma escape_keys :
  Json.escape "host" = "host" /\ Json.escape "metric" = "metric"
  /\ Json.escape "value" = "value" /\ Json.escape "units" = "units"
  /\ Json.escape "timestamp" = "timestamp".
Proof. repeat split; vm_compute; reflexivity. Qed.

Lemma iterencode_dict_object (r : ExportRecord) :
  Json.iterencode_dict "  " 1 (record_items r) = Layout.object r.
Proof.
  destruct r as [h m v u t].
  destruct escape_keys as [Kh [Km [Kv [Ku Kt]]]].
  unfold Json.iterencode_dict, Layout.object, Layout.member, Layout.literal,
    Str.quoted, record_items.
  cbn [Json.dict_chunks host metric value units timestamp].
  unfold Json.encode_basestring_ascii.
  rewrite Kh, Km, Kv, Ku, Kt, !app_assoc_str. reflexivity.
Qed.

Lemma list_chunks_join (sep : string) (r : ExportRecord)
    (rest : list ExportRecord) :
  Str.join sep (map Layout.object (r :: rest))
  = Layout.object r
    +:+ Json.list_chunks "  " 1 sep false (map record_items rest).
Proof.
  revert r. induction rest as [|r' rest IH]; intros r.
  - cbn [map Str.join Json.list_chunks]. rewrite app_empty_r. reflexivity.
  - change (Str.join sep (map Layout.object (r :: r' :: rest)))
      with (Layout.object r +:+ sep
            +:+ Str.join sep (map Layout.object (r' :: rest))).
    rewrite IH. cbn [map Json.list_chunks].
    rewrite iterencode_dict_object, ?app_assoc_str. reflexivity.
Qed.

Lemma dump_array (snapshot : list ExportRecord) :
  json_document snapshot = Layout.array snapshot.
Proof.
  unfold json_document, Json.dump, Layout.array, Json.iterencode_list.
  destruct snapshot as [|r rest]; [reflexivity |].
  rewrite list_chunks_join.
  cbn [map Json.list_chunks]. rewrite iterencode_dict_object.
  change (Str.repeat " " 2) with "  ".
  rewrite ?app_assoc_str. reflexivity.
Qed.

(** ** Reading the table back *)

Lemma feed_app {A : Type} (f : A -> ascii -> A) (s1 s2 : string) :
  forall a, Str.feed f a (s1 +:+ s2) = Str.feed f (Str.feed f a s1) s2.
Proof.
  induction s1 as [|c s1 IH]; intros a; simpl; [reflexivity | apply IH].
Qed.

Lemma snoc_app (acc : string) (c : ascii) (s : string) :
  (acc +:+ Str.of_char c) +:+ s = acc +:+ String c s.
Proof. rewrite app_assoc_str. reflexivity. Qed.

Lemma special_false (c : ascii) :
  Csv.special c = false ->
  CsvReader.is_newline c = false /\ Ascii.eqb c Csv.delimiter = false
  /\ Ascii.eqb c Csv.quotechar = false.
Proof.
  rewrite special_chars, !orb_false_iff. intros [[[Hd Hq] Hcr] Hlf].
  unfold CsvReader.is_newline. rewrite Hcr, Hlf. repeat split; assumption.
Qed.

Lemma read_plain (R : list (list string)) (F : list string) (s : string) :
  Str.any Csv.special s = false ->
  forall acc,
    Str.feed CsvReader.step (Rd R F acc CsvReader.IN_FIELD) s
    = Rd R F (acc +:+ s) CsvReader.IN_FIELD.
Proof.
  induction s as [|c s IH]; cbn [Str.any Str.feed]; intros Hs acc.
  - rewrite app_empty_r. reflexivity.
  - apply orb_false_iff in Hs. destruct Hs as [Hc Hs].
    destruct (special_false c Hc) as [Hn [Hd Hq]].
    unfold CsvReader.step at 2. cbn [CsvReader.state Rd].
    rewrite Hn, Hd. unfold CsvReader.add_char. cbn [CsvReader.rows
      CsvReader.fields CsvReader.field Rd].
    fold (Rd R F (acc +:+ Str.of_char c) CsvReader.IN_FIELD).
    rewrite (IH Hs), snoc_app. reflexivity.
Qed.

Lemma read_quoted (R : list (list string)) (F : list string) (s : string) :
  forall acc,
    Str.feed CsvReader.step (Rd R F acc CsvReader.IN_QUOTED_FIELD)
             (Csv.double_quotes s)
    = Rd R F (acc +:+ s) CsvReader.IN_QUOTED_FIELD.
Proof.
  induction s as [|c s IH]; cbn [Csv.double_quotes Str.feed]; intros acc.
  - rewrite app_empty_r. reflexivity.
  - destruct (Ascii.eqb c Csv.quotechar) eqn:Hq.
    + apply Ascii.eqb_eq in Hq. subst c. cbn [Str.feed].
      change (CsvReader.step
                (CsvReader.step (Rd R F acc CsvReader.IN_QUOTED_FIELD)
                                Csv.quotechar) Csv.quotechar)
        with (Rd R F (acc +:+ Str.of_char Csv.quotechar)
                 CsvReader.IN_QUOTED_FIELD).
      rewrite IH, snoc_app. reflexivity.
    + cbn [Str.feed]. unfold CsvReader.step at 2. cbn [CsvReader.state Rd].
      rewrite Hq. unfold CsvReader.add_char. cbn [CsvReader.rows
        CsvReader.fields CsvReader.field Rd].
      fold (Rd R F (acc +:+ Str.of_char c) CsvReader.IN_QUOTED_FIELD).
      rewrite IH, snoc_app. reflexivity.
Qed.

Lemma read_cell (R : list (list string)) (F : list string) (s : string)
    (m : CsvReader.mode) :
  at_field_start m ->
  exists m',
    Str.feed CsvReader.step (Rd R F "" m) (Layout.cell s) = Rd R F s m'
    /\ after_cell s m m'.
Proof.
  intros Hm. unfold Layout.cell.
  destruct (Layout.needs_quotes s) eqn:Hq.
  - exists CsvReader.QUOTE_IN_QUOTED_FIELD. split; [| right; left; reflexivity].
    unfold Str.quoted, Str.dq, Str.of_char. cbn [String.append Str.feed].
    replace (CsvReader.step (Rd R F "" m) Str.DQUOTE)
      with (Rd R F "" CsvReader.IN_QUOTED_FIELD)
      by (destruct Hm as [-> | [-> | ->]]; reflexivity).
    rewrite feed_app, read_quoted. reflexivity.
  - rewrite needs_quotes_special in Hq. destruct s as [|c s].
    + exists m. split; [reflexivity | right; right; split; reflexivity].
    + exists CsvReader.IN_FIELD. split; [| left; reflexivity].
      cbn [Str.any] in Hq. apply orb_false_iff in Hq. destruct Hq as [Hc Hs].
      destruct (special_false c Hc) as [Hn [Hd Hqc]].
      cbn [Str.feed].
      replace (CsvReader.step (Rd R F "" m) c)
        with (Rd R F (Str.of_char c) CsvReader.IN_FIELD).
      * rewrite (read_plain R F s Hs). reflexivity.
      * destruct Hm as [-> | [-> | ->]];
          unfold CsvReader.step, CsvReader.start_field;
          cbn [CsvReader.state Rd]; rewrite Hn, Hqc, Hd; reflexivity.
Qed.

(** After a cell, a comma stores the field and a carriage return closes the
    record. *)
Lemma step_comma (R : list (list string)) (F : list string) (s : string)
    (m m' : CsvReader.mode) :
  at_field_start m -> after_cell s m m' ->
  CsvReader.step (Rd R F s m') ","%char
  = Rd R (F ++ [s]) "" CsvReader.START_FIELD.
Proof.
  intros Hm [-> | [-> | [-> ->]]]; [reflexivity | reflexivity |].
  destruct Hm as [-> | [-> | ->]]; reflexivity.
Qed.

Lemma step_CR (R : list (list string)) (F : list string) (s : string)
    (m' : CsvReader.mode) :
  after_cell s CsvReader.START_FIELD m' ->
  CsvReader.step (Rd R F s m') Str.CR
  = Rd (R ++ [F ++ [s]]) [] "" CsvReader.EAT_CRNL.
Proof. intros [-> | [-> | [-> ->]]]; reflexivity. Qed.

(** The cells of a line after its first comma. *)
Lemma read_cells (R : list (list string)) (l : list string) :
  forall (x : string) (F : list string),
    Str.feed CsvReader.step (Rd R F "" CsvReader.START_FIELD)
             (Layout.line (x :: l))
    = Rd (R ++ [F ++ x :: l]) [] "" CsvReader.EAT_CRNL.
Proof.
  unfold Layout.line.
  induction l as [|y l IH]; intros x F.
  - cbn [map Str.join]. rewrite feed_app.
    destruct (read_cell R F x CsvReader.START_FIELD) as [m' [-> Hm']];
      [right; left; reflexivity |].
    unfold Layout.CRLF, Str.of_char. cbn [Str.feed].
    rewrite (step_CR R F x m' Hm'). reflexivity.
  - change (Str.join "," (map Layout.cell (x :: y :: l)))
      with (Layout.cell x +:+ ","
            +:+ Str.join "," (map Layout.cell (y :: l))).
    rewrite !app_assoc_str, feed_app.
    destruct (read_cell R F x CsvReader.START_FIELD) as [m' [-> Hm']];
      [right; left; reflexivity |].
    cbn [String.append Str.feed].
    rewrite (step_comma R F x CsvReader.START_FIELD m');
      [| right; left; reflexivity | exact Hm'].
    rewrite IH, <- app_assoc. reflexivity.
Qed.

(** A line of at least two cells, read at the start of a record. *)
Lemma read_line (R : list (list string)) (x y : string) (l : list string)
    (m : CsvReader.mode) :
  m = CsvReader.START_RECORD \/ m = CsvReader.EAT_CRNL ->
  Str.feed CsvReader.step (Rd R [] "" m) (Layout.line (x :: y :: l))
  = Rd (R ++ [x :: y :: l]) [] "" CsvReader.EAT_CRNL.
Proof.
  intros Hm.
  assert (Hstart : at_field_start m)
    by (destruct Hm as [-> | ->]; [left | right; right]; reflexivity).
  pose proof (read_cells R l y [x]) as Hrest.
  unfold Layout.line in *.
  change (Str.join "," (map Layout.cell (x :: y :: l)))
    with (Layout.cell x +:+ ","
          +:+ Str.join "," (map Layout.cell (y :: l))).
  rewrite !app_assoc_str, feed_app.
  destruct (read_cell R [] x m Hstart) as [m' [-> Hm']].
  cbn [String.append Str.feed].
  rewrite (step_comma R [] x m m' Hstart Hm'). exact Hrest.
Qed.

Lemma read_lines (snapshot : list ExportRecord) :
  forall R,
    Str.feed CsvReader.step (Rd R [] "" CsvReader.EAT_CRNL)
             (Layout.lines snapshot)
    = Rd (R ++ map Layout.cells snapshot) [] "" CsvReader.EAT_CRNL.
Proof.
  induction snapshot as [|r rest IH]; intros R; cbn [Layout.lines map].
  - rewrite app_nil_r. reflexivity.
  - rewrite feed_app. unfold Layout.cells at 1.
    rewrite read_line by (right; reflexivity).
    rewrite IH, <- app_assoc. reflexivity.
Qed.

(** Reading the table gives the header and one row per record, in order. *)
Lemma read_table (snapshot : list ExportRecord) :
  CsvReader.read (Layout.table snapshot)
  = fieldnames :: map Layout.cells snapshot.
Proof.
  unfold CsvReader.read, Layout.table.
  rewrite <- app_assoc_str, feed_app.
  change (Str.feed CsvReader.step
            {| CsvReader.rows := []; CsvReader.fields := [];
               CsvReader.field := ""; CsvReader.state := CsvReader.START_RECORD |}
            ("host,metric,value,units,timestamp" +:+ Layout.CRLF))
    with (Rd [fieldnames] [] "" CsvReader.EAT_CRNL).
  rewrite read_lines. reflexivity.
Qed.

Lemma record_of_dict_of_record (r : ExportRecord) :
  record_of_dict (dict_of_record r) = Some r.
Proof.
  destruct r as [h m v u t]. unfold record_of_dict, dict_of_record.
  cbn [host metric value units timestamp].
  rewrite (lookup_insert_ne _ "timestamp" "host") by discriminate.
  rewrite (lookup_insert_ne _ "units" "host") by discriminate.
  rewrite (lookup_insert_ne _ "value" "host") by discriminate.
  rewrite (lookup_insert_ne _ "metric" "host") by discriminate.
  rewrite lookup_insert_eq. cbn [mbind option_bind].
  rewrite (lookup_insert_ne _ "timestamp" "metric") by discriminate.
  rewrite (lookup_insert_ne _ "units" "metric") by discriminate.
  rewrite (lookup_insert_ne _ "value" "metric") by discriminate.
  rewrite lookup_insert_eq. cbn [mbind option_bind].
  rewrite (lookup_insert_ne _ "timestamp" "value") by discriminate.
  rewrite (lookup_insert_ne _ "units" "value") by discriminate.
  rewrite lookup_insert_eq. cbn [mbind option_bind].
  rewrite (lookup_insert_ne _ "timestamp" "units") by discriminate.
  rewrite lookup_insert_eq. cbn [mbind option_bind].
  rewrite lookup_insert_eq. reflexivity.
Qed.

Lemma mapM_records (snapshot : list ExportRecord) :
  mapM record_of_dict (map dict_of_record snapshot) = Some snapshot.
Proof.
  induction snapshot as [|r rest IH]; [reflexivity |].
  cbn [map mapM]. rewrite record_of_dict_of_record. cbn [mbind option_bind].
  rewrite IH. reflexivity.
Qed.

Lemma csv_records_table (snapshot : list ExportRecord) :
  CsvReader.records (Layout.table snapshot) = Some snapshot.
Proof.
  unfold CsvReader.records, CsvReader.load. rewrite read_table.
  rewrite map_map.
  rewrite (map_ext _ dict_of_record) by (intros r; reflexivity).
  apply mapM_records.
Qed.

(** ** Reading the array back *)

Lemma lex_escape_char (c : ascii) :
  forall ts acc,
    Str.feed JsonReader.lex_step (Lx ts (JsonReader.InString acc))
             (Json.escape_char c)
    = Lx ts (JsonReader.InString (JsonReader.snoc acc c)).
Proof.
  intros ts acc.
  destruct c as [[] [] [] [] [] [] [] []]; reflexivity.
Qed.

Lemma lex_escape (s : string) :
  forall ts acc,
    Str.feed JsonReader.lex_step (Lx ts (JsonReader.InString acc))
             (Json.escape s)
    = Lx ts (JsonReader.InString (acc +:+ s)).
Proof.
  induction s as [|c s IH]; intros ts acc; cbn [Json.escape].
  - rewrite app_empty_r. reflexivity.
  - rewrite feed_app, lex_escape_char, IH.
    unfold JsonReader.snoc. rewrite snoc_app. reflexivity.
Qed.

Lemma lex_literal (s : string) (ts : list JsonReader.token) :
  Str.feed JsonReader.lex_step (Lx ts JsonReader.Outside) (Layout.literal s)
  = Lx (ts ++ [JsonReader.Lit s]) JsonReader.Outside.
Proof.
  unfold Layout.literal, Str.quoted, Str.dq, Str.of_char.
  cbn [String.append Str.feed].
  change (JsonReader.lex_step (Lx ts JsonReader.Outside) Str.DQUOTE)
    with (Lx ts (JsonReader.InString "")).
  rewrite feed_app, lex_escape. reflexivity.
Qed.

Lemma lex_space (ts : list JsonReader.token) :
  JsonReader.lex_step (Lx ts JsonReader.Outside) " "
  = Lx ts JsonReader.Outside.
Proof. reflexivity. Qed.

Lemma lex_newline (ts : list JsonReader.token) :
  JsonReader.lex_step (Lx ts JsonReader.Outside) Str.LF
  = Lx ts JsonReader.Outside.
Proof. reflexivity. Qed.

Lemma lex_colon (ts : list JsonReader.token) :
  JsonReader.lex_step (Lx ts JsonReader.Outside) ":"
  = Lx (ts ++ [JsonReader.Colon]) JsonReader.Outside.
Proof. reflexivity. Qed.

Lemma lex_comma (ts : list JsonReader.token) :
  JsonReader.lex_step (Lx ts JsonReader.Outside) ","
  = Lx (ts ++ [JsonReader.Comma]) JsonReader.Outside.
Proof. reflexivity. Qed.

Lemma lex_lbrace (ts : list JsonReader.token) :
  JsonReader.lex_step (Lx ts JsonReader.Outside) "{"
  = Lx (ts ++ [JsonReader.LBrace]) JsonReader.Outside.
Proof. reflexivity. Qed.

Lemma lex_rbrace (ts : list JsonReader.token) :
  JsonReader.lex_step (Lx ts JsonReader.Outside) "}"
  = Lx (ts ++ [JsonReader.RBrace]) JsonReader.Outside.
Proof. reflexivity. Qed.

Lemma lex_lbracket (ts : list JsonReader.token) :
  JsonReader.lex_step (Lx ts JsonReader.Outside) "["
  = Lx (ts ++ [JsonReader.LBracket]) JsonReader.Outside.
Proof. reflexivity. Qed.

Lemma lex_rbracket (ts : list JsonReader.token) :
  JsonReader.lex_step (Lx ts JsonReader.Outside) "]"
  = Lx (ts ++ [JsonReader.RBracket]) JsonReader.Outside.
Proof. reflexivity. Qed.

(** Lexing a text that is white space, punctuation and literals. *)
Ltac lex_text :=
  repeat first
    [ progress cbn [String.append Str.feed]
    | rewrite lex_space | rewrite lex_newline
    | rewrite lex_colon | rewrite lex_comma
    | rewrite lex_lbrace | rewrite lex_rbrace
    | rewrite lex_lbracket | rewrite lex_rbracket
    | rewrite feed_app, lex_literal ].

Lemma lex_member (key val : string) (ts : list JsonReader.token) :
  Str.feed JsonReader.lex_step (Lx ts JsonReader.Outside)
           (Layout.member key val)
  = Lx (ts ++ [JsonReader.Lit key; JsonReader.Colon; JsonReader.Lit val])
       JsonReader.Outside.
Proof.
  unfold Layout.member. lex_text.
  rewrite lex_literal, <- !app_assoc. reflexivity.
Qed.

Lemma lex_object (r : ExportRecord) (ts : list JsonReader.token) :
  Str.feed JsonReader.lex_step (Lx ts JsonReader.Outside) (Layout.object r)
  = Lx (ts ++ object_tokens r) JsonReader.Outside.
Proof.
  unfold Layout.object, Str.nl, Str.of_char.
  cbn [String.append Str.feed]. rewrite lex_lbrace, lex_newline.
  repeat (rewrite feed_app, lex_member; cbn [String.append Str.feed];
          rewrite ?lex_comma, ?lex_newline, ?lex_space, ?lex_rbrace).
  rewrite <- !app_assoc. reflexivity.
Qed.

Lemma lex_objects (rest : list ExportRecord) :
  forall (r : ExportRecord) (ts : list JsonReader.token),
    Str.feed JsonReader.lex_step (Lx ts JsonReader.Outside)
             (Str.join ("," +:+ Str.nl +:+ "  ")
                       (map Layout.object (r :: rest)))
    = Lx (ts ++ object_tokens r ++ more_objects rest) JsonReader.Outside.
Proof.
  induction rest as [|r' rest IH]; intros r ts.
  - cbn [map Str.join more_objects]. rewrite lex_object, app_nil_r.
    reflexivity.
  - change (Str.join ("," +:+ Str.nl +:+ "  ")
              (map Layout.object (r :: r' :: rest)))
      with (Layout.object r +:+ ("," +:+ Str.nl +:+ "  ")
            +:+ Str.join ("," +:+ Str.nl +:+ "  ")
                         (map Layout.object (r' :: rest))).
    rewrite feed_app, lex_object.
    unfold Str.nl, Str.of_char. cbn [String.append Str.feed].
    rewrite lex_comma, lex_newline, !lex_space.
    change (String "," (String Str.LF "  "))
      with ("," +:+ Str.nl +:+ "  ").
    rewrite IH. cbn [more_objects]. rewrite <- !app_assoc. reflexivity.
Qed.

Lemma lex_array (snapshot : list ExportRecord) :
  JsonReader.lex (Layout.array snapshot) = Some (array_tokens snapshot).
Proof.
  unfold JsonReader.lex, Layout.array.
  destruct snapshot as [|r rest]; [reflexivity |].
  fold (Lx [] JsonReader.Outside).
  unfold Str.nl at 1 3. unfold Str.of_char.
  cbn [String.append Str.feed].
  rewrite lex_lbracket, lex_newline, !lex_space, feed_app, lex_objects.
  cbn [Str.feed]. rewrite lex_newline, lex_rbracket.
  unfold Lx, array_tokens. cbn [app]. rewrite <- !app_assoc. reflexivity.
Qed.

Lemma parse_object (r : ExportRecord) (p : JsonReader.parser)
    (objs : list (gmap string string)) (rest : list JsonReader.token) :
  JsonReader.parse_token p JsonReader.LBrace
  = Some (JsonReader.ObjectOpen objs) ->
  fold_left JsonReader.parse_step (object_tokens r ++ rest) (Some p)
  = fold_left JsonReader.parse_step rest
              (Some (JsonReader.AfterObject (objs ++ [dict_of_record r]))).
Proof.
  intros Hopen. unfold object_tokens.
  cbn [app fold_left JsonReader.parse_step]. rewrite Hopen. reflexivity.
Qed.

Lemma parse_more_objects (rest : list ExportRecord) :
  forall (objs : list (gmap string string)) (tail : list JsonReader.token),
    fold_left JsonReader.parse_step (more_objects rest ++ tail)
              (Some (JsonReader.AfterObject objs))
    = fold_left JsonReader.parse_step tail
        (Some (JsonReader.AfterObject (objs ++ map dict_of_record rest))).
Proof.
  induction rest as [|r rest IH]; intros objs tail; cbn [more_objects map].
  - rewrite app_nil_r. reflexivity.
  - cbn [app fold_left JsonReader.parse_step JsonReader.parse_token].
    rewrite <- app_assoc.
    rewrite (parse_object r (JsonReader.NeedObject objs) objs)
      by reflexivity.
    rewrite IH, <- app_assoc. reflexivity.
Qed.

Lemma parse_array (snapshot : list ExportRecord) :
  JsonReader.parse (array_tokens snapshot)
  = Some (map dict_of_record snapshot).
Proof.
  unfold JsonReader.parse, array_tokens.
  destruct snapshot as [|r rest]; [reflexivity |].
  cbn [fold_left JsonReader.parse_step JsonReader.parse_token].
  rewrite (parse_object r JsonReader.ArrayOpen []) by reflexivity.
  rewrite parse_more_objects. reflexivity.
Qed.

Lemma json_records_array (snapshot : list ExportRecord) :
  JsonReader.records (Layout.array snapshot) = Some snapshot.
Proof.
  unfold JsonReader.records, JsonReader.load.
  rewrite lex_array. cbn [mbind option_bind].
  rewrite parse_array. cbn [mbind option_bind].
  apply mapM_records.
Qed.

(** ** The claims about a run *)

(** The scenario of the specification: the two items of the one host
    become the redacted record and the plain record, under the run's
    timestamp. *)
Example scenario_run :
  main sample_api sample_world
  = (Ok sample_run, after_run sample_world sample_run)
  /\ filtered_metrics sample_run = [sample_record; cpu_record].
Proof. split; [vm_compute; reflexivity | reflexivity]. Qed.

Lemma main_snapshot_mapped (api : Api) (w w' : World) (run : Run) :
  main api w = (Ok run, w') ->
  Forall (mapped (strftime (clock w (reads w)) "%Y-%m-%d_%H-%M"))
         (filtered_metrics run).
Proof.
  intros H. destruct (main_inv _ _ _ _ H) as [snap [csv [Hloop [_ [-> _]]]]].
  destruct (hosts_loop_appends _ _ _ _ _ Hloop) as [new [-> Hall]].
  exact Hall.
Qed.



Lemma map_item_ignores_lastclock (ts c : string)
    (item : gmap string string) :
  map_item ts (<["lastclock" := c]> item) = map_item ts item.
Proof.
  rewrite !map_item_cases.
  rewrite !(lookup_insert_ne _ "lastclock") by discriminate.
  reflexivity.
Qed.

(** C5.  Every record of a run carries the run's one timestamp: the first
    reading of the clock, to the minute, written year-month-day, an
    underscore, hour-minute; an item's lastclock has no part in its
    record. *)
Theorem shared_run_timestamp (api : Api) (w w' : World) (run : Run) :
  main api w = (Ok run, w') ->
  let now := clock w (reads w) in
  Forall (fun r => timestamp r = strftime now "%Y-%m-%d_%H-%M")
         (filtered_metrics run)
  /\ strftime now "%Y-%m-%d_%H-%M"
     = Str.zfill 4 (Str.of_nat (year now)) +:+ "-"
       +:+ Str.zfill 2 (Str.of_nat (month now)) +:+ "-"
       +:+ Str.zfill 2 (Str.of_nat (day now)) +:+ "_"
       +:+ Str.zfill 2 (Str.of_nat (hour now)) +:+ "-"
       +:+ Str.zfill 2 (Str.of_nat (minute now))
  /\ forall (ts c : string) (item : gmap string string),
       map_item ts (<["lastclock" := c]> item) = map_item ts item.
Proof.
  intros H now. split; [| split].
  - eapply Forall_impl; [apply (main_snapshot_mapped _ _ _ _ H) |].
    intros r [item Hr]. apply (map_item_constants _ _ _ Hr).
  - cbn [strftime]. unfold directive. cbn. rewrite app_empty_r. reflexivity.
  - intros ts c item. apply map_item_ignores_lastclock.
Qed.

Lemma shared_run_timestamp_witness :
  let now := clock sample_world (reads sample_world) in
  Forall (fun r => timestamp r = strftime now "%Y-%m-%d_%H-%M")
         (filtered_metrics sample_run)
  /\ strftime now "%Y-%m-%d_%H-%M"
     = Str.zfill 4 (Str.of_nat (year now)) +:+ "-"
       +:+ Str.zfill 2 (Str.of_nat (month now)) +:+ "-"
       +:+ Str.zfill 2 (Str.of_nat (day now)) +:+ "_"
       +:+ Str.zfill 2 (Str.of_nat (hour now)) +:+ "-"
       +:+ Str.zfill 2 (Str.of_nat (minute now))
  /\ forall (ts c : string) (item : gmap string string),
       map_item ts (<["lastclock" := c]> item) = map_item ts item.
Proof.
  apply (shared_run_timestamp sample_api sample_world
           (after_run sample_world sample_run) sample_run).
  vm_compute. reflexivity.
Defined.

(** ** The summary *)

Lemma join_occurs (sep x : string) (before after : list string) :
  after <> [] ->
  Str.occurs_in (x +:+ sep) (Str.join sep (before ++ x :: after)).
Proof.
  intros Hafter. destruct after as [|y after]; [contradiction |].
  induction before as [|b before IH].
  - exists "", (Str.join sep (y :: after)).
    change (Str.join sep ([] ++ x :: y :: after))
      with (x +:+ sep +:+ Str.join sep (y :: after)).
    rewrite app_assoc_str. reflexivity.
  - destruct IH as [pre [post IH]]. exists (b +:+ sep +:+ pre), post.
    replace (Str.join sep ((b :: before) ++ x :: y :: after))
      with (b +:+ sep +:+ Str.join sep (before ++ x :: y :: after))
      by (destruct before; reflexivity).
    rewrite IH, !app_assoc_str. reflexivity.
Qed.

Lemma readme_reports_count (last_updated : string) :
  Str.occurs_in ("- Total Metrics Collected: 0" +:+ Str.nl)
                (readme_template last_updated 0).
Proof.
  unfold readme_template.
  apply (join_occurs Str.nl "- Total Metrics Collected: 0"
           ["# Zabbix Metrics Archive"; "";
            "⚠️ **Note**: Sensitive fields like hostnames and system descriptions are redacted.";
            ""; "## Dataset Info"; "- Last Updated: " +:+ last_updated]).
  discriminate.
Qed.

(** ** The documents *)

Lemma contains_comma_needs_quotes (s : string) :
  Str.contains "," s = true -> Layout.needs_quotes s = true.
Proof.
  unfold Layout.needs_quotes.
  induction s as [|c s IH]; cbn [Str.contains Str.startswith Str.any].
  - discriminate.
  - rewrite andb_true_r, Ascii.eqb_sym. intros H.
    apply orb_true_iff in H. destruct H as [-> | H]; [reflexivity |].
    rewrite (IH H). apply orb_true_r.
Qed.

(** C6.  The JSON document is the array laid out with two spaces per
    level, its objects in input order with the keys host, metric, value,
    units, timestamp in that order: lexed, it is the bracket, then per
    record the five keys in that order each with its value, then the
    closing bracket, and parsed it is one five-key object per record.  The
    CSV document is the header line followed by one line per record in
    input order, which read back as the header row and one row of cells
    per record; a cell holding a comma is written between double quotes
    with its quotes doubled. *)
Theorem documents_layout (snapshot : list ExportRecord) :
  json_document snapshot = Layout.array snapshot
  /\ JsonReader.lex (json_document snapshot) = Some (array_tokens snapshot)
  /\ JsonReader.load (json_document snapshot)
     = Some (map dict_of_record snapshot)
  /\ csv_document snapshot = Ok (Layout.table snapshot)
  /\ CsvReader.read (Layout.table snapshot)
     = ["host"; "metric"; "value"; "units"; "timestamp"]
       :: map Layout.cells snapshot
  /\ (forall s : string,
        Str.contains "," s = true ->
        Csv.join_append s false = Str.quoted (Csv.double_quotes s)).
Proof.
  split; [apply dump_array |].
  split; [rewrite dump_array; apply lex_array |].
  split.
  { unfold JsonReader.load. rewrite dump_array, lex_array.
    cbn [mbind option_bind]. apply parse_array. }
  split; [apply csv_document_table |].
  split; [apply read_table |].
  intros s Hs. rewrite join_append_cell. unfold Layout.cell.
  rewrite (contains_comma_needs_quotes s Hs). reflexivity.
Qed.

(** C4.  Both documents of a snapshot read back as the snapshot: the same
    records with the same fields in the same order, from the JSON document
    and from the CSV document alike. *)
Theorem documents_round_trip (snapshot : list ExportRecord) :
  JsonReader.records (json_document snapshot) = Some snapshot
  /\ exists csv : string,
       csv_document snapshot = Ok csv
       /\ CsvReader.records csv = Some snapshot
       /\ JsonReader.records (json_document snapshot)
          = CsvReader.records csv.
Proof.
  assert (Hjson : JsonReader.records (json_document snapshot) = Some snapshot)
    by (rewrite dump_array; apply json_records_array).
  split; [exact Hjson |].
  exists (Layout.table snapshot). split; [apply csv_document_table |].
  rewrite Hjson, csv_records_table. split; reflexivity.
Qed.

(** * Further properties of the code *)

(** ** The collection loops *)

Lemma mappable_iff (ts : string) (item : gmap string string) :
  mappable item <-> exists r, map_item ts item = Ok r.
Proof.
  unfold mappable. rewrite map_item_cases. split.
  - intros [name [-> [[u ->] Hv]]].
    destruct (should_redact name); [eauto |].
    destruct Hv as [Hv | [v ->]]; [discriminate | eauto].
  - intros [r H].
    destruct (item !! "name") as [name|]; [| discriminate].
    exists name. split; [reflexivity |].
    destruct (should_redact name).
    + destruct (item !! "units"); [| discriminate]. split; eauto.
    + destruct (item !! "lastvalue"); [| discriminate].
      destruct (item !! "units"); [| discriminate]. split; eauto.
Qed.


(** The inner loop succeeds exactly when every item maps, and then appends
    the records of the items, one each, in order. *)
Lemma items_loop_Ok (ts : string) (items : list (gmap string string)) :
  forall acc out,
    items_loop ts items acc = Ok out <->
    exists new,
      out = acc ++ new
      /\ Forall2 (fun item r => map_item ts item = Ok r) items new.
Proof.
  induction items as [|item rest IH]; intros acc out; simpl.
  - split.
    + intros H. injection H as <-. exists []. rewrite app_nil_r.
      split; [reflexivity | constructor].
    + intros [new [-> Hnew]]. inversion Hnew. rewrite app_nil_r. reflexivity.
  - destruct (map_item ts item) as [r|e] eqn:Hr; simpl.
    + rewrite IH. split.
      * intros [new [-> Hnew]]. exists (r :: new).
        rewrite <- app_assoc. split; [reflexivity |].
        constructor; assumption.
      * intros [new [-> Hnew]]. inversion Hnew as [|? r' ? new' Hr' Hrest];
          subst. rewrite Hr in Hr'. injection Hr' as <-.
        exists new'. rewrite <- app_assoc. split; [reflexivity | exact Hrest].
    + split; [discriminate |].
      intros [new [_ Hnew]]. inversion Hnew as [|? r' ? new' Hr' Hrest];
        subst. rewrite Hr in Hr'. discriminate.
Qed.

Lemma hosts_loop_Ok (api : Api) (ts : string)
    (hosts : list (gmap string string)) :
  forall acc out,
    hosts_loop api ts hosts acc = Ok out <->
    Forall has_hostid hosts
    /\ exists new,
         out = acc ++ new
         /\ Forall2 (fun item r => map_item ts item = Ok r)
                    (all_items api hosts) new.
Proof.
  induction hosts as [|h rest IH]; intros acc out;
    cbn [hosts_loop all_items flat_map].
  - split.
    + intros H. injection H as <-. split; [constructor |].
      exists []. rewrite app_nil_r. split; [reflexivity | constructor].
    + intros [_ [new [-> Hnew]]]. inversion Hnew. rewrite app_nil_r.
      reflexivity.
  - unfold getitem, has_hostid.
    destruct (h !! "hostid") as [hostid|] eqn:Hid; cbn [bind].
    + destruct (items_loop ts (zabbix_get_items api hostid) acc)
        as [acc'|e] eqn:Hitems; cbn [bind].
      * apply items_loop_Ok in Hitems. destruct Hitems as [new1 [-> Hnew1]].
        rewrite IH. fold (all_items api rest). split.
        -- intros [Hrest [new2 [-> Hnew2]]]. split.
           ++ constructor; [rewrite Hid; eauto | exact Hrest].
           ++ exists (new1 ++ new2). rewrite <- app_assoc.
              split; [reflexivity |]. apply Forall2_app; assumption.
        -- intros [Hall [new [-> Hnew]]].
           apply Forall_cons in Hall. destruct Hall as [_ Hrest].
           apply Forall2_app_inv_l in Hnew.
           destruct Hnew as [k1 [k2 [Hk1 [Hk2 ->]]]].
           assert (k1 = new1) as ->.
           { clear -Hk1 Hnew1. revert k1 Hk1.
             induction Hnew1 as [|item r items rs Hr _ IHn]; intros k1 Hk1;
               inversion Hk1 as [|? r' ? rs' Hr' Hrs']; subst;
               [reflexivity |].
             rewrite Hr in Hr'. injection Hr' as <-.
             rewrite (IHn _ Hrs'). reflexivity. }
           split; [exact Hrest |]. exists k2. rewrite <- app_assoc.
           split; [reflexivity | exact Hk2].
      * split; [discriminate |].
        intros [_ [new [_ Hnew]]]. fold (all_items api rest) in Hnew.
        apply Forall2_app_inv_l in Hnew.
        destruct Hnew as [k1 [k2 [Hk1 [_ _]]]].
        assert (Hok : items_loop ts (zabbix_get_items api hostid) acc
                      = Ok (acc ++ k1))
          by (apply items_loop_Ok; exists k1; split; [reflexivity | exact Hk1]).
        rewrite Hok in Hitems. discriminate.
    + split; [discriminate |]. intros [Hall _].
      apply Forall_cons in Hall. destruct Hall as [[x Hx] _].
      rewrite Hid in Hx. discriminate.
Qed.

Lemma Forall2_mappable (ts : string) (items : list (gmap string string)) :
  Forall mappable items <->
  exists new, Forall2 (fun item r => map_item ts item = Ok r) items new.
Proof.
  induction items as [|item rest IH].
  - split; [intros _; exists []; constructor | intros _; constructor].
  - rewrite Forall_cons, IH, (mappable_iff ts). split.
    + intros [[r Hr] [new Hnew]]. exists (r :: new). constructor; assumption.
    + intros [new Hnew]. inversion Hnew as [|? r ? new' Hr Hrest]; subst.
      split; [exists r; exact Hr | exists new'; exact Hrest].
Qed.



(** ** The run *)

(** X1.  A run that succeeds has exactly one record per item the API
    returned, host after host and item after item, each the mapper's record
    of its item under the run's timestamp; the count the summary is given
    is the number of these items. *)
Theorem run_one_record_per_item (api : Api) (w w' : World) (run : Run) :
  main api w = (Ok run, w') ->
  Forall2 (fun item r =>
             map_item (strftime (clock w (reads w)) "%Y-%m-%d_%H-%M") item
             = Ok r)
          (all_items api (host_get api)) (filtered_metrics run)
  /\ length (filtered_metrics run)
     = length (all_items api (host_get api))
  /\ readme_content run
     = readme_template
         (strftime (clock w (S (reads w))) "%Y-%m-%d %H:%M UTC")
         (length (all_items api (host_get api))).
Proof.
  intros H. destruct (main_inv _ _ _ _ H) as [snap [csv [Hloop [_ [-> _]]]]].
  apply hosts_loop_Ok in Hloop. destruct Hloop as [_ [new [-> Hnew]]].
  cbn [app run_of filtered_metrics readme_content].
  assert (Hlen : length new = length (all_items api (host_get api)))
    by (symmetry; apply (Forall2_length _ _ _ Hnew)).
  split; [exact Hnew |]. split; [exact Hlen |]. rewrite Hlen. reflexivity.
Qed.

Lemma run_one_record_per_item_witness :
  Forall2 (fun item r =>
             map_item (strftime (clock sample_world (reads sample_world))
                                "%Y-%m-%d_%H-%M") item
             = Ok r)
          (all_items sample_api (host_get sample_api))
          (filtered_metrics sample_run)
  /\ length (filtered_metrics sample_run)
     = length (all_items sample_api (host_get sample_api))
  /\ readme_content sample_run
     = readme_template
         (strftime (clock sample_world (S (reads sample_world)))
                   "%Y-%m-%d %H:%M UTC")
         (length (all_items sample_api (host_get sample_api))).
Proof.
  apply (run_one_record_per_item sample_api sample_world
           (after_run sample_world sample_run) sample_run).
  vm_compute. reflexivity.
Defined.

(** ** The files of a run *)

Lemma app_inv_head_str (a x y : string) : a +:+ x = a +:+ y -> x = y.
Proof.
  induction a as [|c a IH]; simpl; intros H; [exact H |].
  injection H as H. exact (IH H).
Qed.

Lemma data_files_differ (timestamp : string) :
  "data/" +:+ timestamp +:+ ".json" <> "data/" +:+ timestamp +:+ ".csv".
Proof.
  intros H. apply app_inv_head_str, app_inv_head_str in H. discriminate.
Qed.

Lemma readme_not_data (timestamp ext : string) :
  "README.md" <> "data/" +:+ timestamp +:+ ext.
Proof. discriminate. Qed.

(** X4.  After a run that succeeds the file system holds the summary under
    README.md and the two documents under the run's two file names, three
    different paths; every other file is as it was, and the run has read
    the clock twice and left the environment alone. *)
Theorem run_files (api : Api) (w w' : World) (run : Run) :
  main api w = (Ok run, w') ->
  files w' !! "README.md" = Some (readme_content run)
  /\ files w' !! json_file run = Some (json_content run)
  /\ files w' !! csv_file run = Some (csv_content run)
  /\ (forall path : string,
        path <> "README.md" -> path <> json_file run ->
        path <> csv_file run ->
        files w' !! path = files w !! path)
  /\ reads w' = S (S (reads w))
  /\ environ w' = environ w.
Proof.
  intros H.
  destruct (main_inv _ _ _ _ H) as [snap [csv [_ [_ [-> ->]]]]].
  unfold after_run, run_of.
  cbn [files reads environ readme_content json_file json_content
       csv_file csv_content].
  set (T := strftime (clock w (reads w)) "%Y-%m-%d_%H-%M").
  pose proof (data_files_differ T) as Hjc.
  pose proof (readme_not_data T ".json") as Hrj.
  pose proof (readme_not_data T ".csv") as Hrc.
  repeat split.
  - rewrite lookup_insert_ne by (intros E; apply Hrc; symmetry; exact E).
    rewrite lookup_insert_ne by (intros E; apply Hrj; symmetry; exact E).
    apply lookup_insert_eq.
  - rewrite lookup_insert_ne by (intros E; apply Hjc; symmetry; exact E).
    apply lookup_insert_eq.
  - apply lookup_insert_eq.
  - intros path Hr Hj Hc.
    rewrite lookup_insert_ne by (intros E; apply Hc; symmetry; exact E).
    rewrite lookup_insert_ne by (intros E; apply Hj; symmetry; exact E).
    rewrite lookup_insert_ne by (intros E; apply Hr; symmetry; exact E).
    reflexivity.
Qed.

Lemma run_files_witness :
  files (after_run sample_world sample_run) !! "README.md"
  = Some (readme_content sample_run)
  /\ files (after_run sample_world sample_run) !! json_file sample_run
     = Some (json_content sample_run)
  /\ files (after_run sample_world sample_run) !! csv_file sample_run
     = Some (csv_content sample_run)
  /\ (forall path : string,
        path <> "README.md" -> path <> json_file sample_run ->
        path <> csv_file sample_run ->
        files (after_run sample_world sample_run) !! path
        = files sample_world !! path)
  /\ reads (after_run sample_world sample_run) = S (S (reads sample_world))
  /\ environ (after_run sample_world sample_run) = environ sample_world.
Proof.
  apply (run_files sample_api sample_world). vm_compute. reflexivity.
Defined.

(** ** The run timestamp *)

Lemma all_chars_app (f : ascii -> bool) (a b : string) :
  all_chars f (a +:+ b) = all_chars f a && all_chars f b.
Proof.
  induction a as [|c a IH]; simpl; [reflexivity |].
  rewrite IH, andb_assoc. reflexivity.
Qed.

Lemma all_chars_impl (f g : ascii -> bool) (s : string) :
  (forall c, f c = true -> g c = true) ->
  all_chars f s = true -> all_chars g s = true.
Proof.
  intros Hfg. induction s as [|c s IH]; simpl; [reflexivity |].
  rewrite !andb_true_iff. intros [Hc Hs]. split; [apply Hfg, Hc | apply IH, Hs].
Qed.

Lemma string_of_uint_digits (d : Decimal.uint) :
  all_chars is_digit (NilEmpty.string_of_uint d) = true.
Proof. induction d; simpl; try reflexivity; exact IHd. Qed.

Lemma of_nat_digits (n : nat) : all_chars is_digit (Str.of_nat n) = true.
Proof.
  unfold Str.of_nat, NilZero.string_of_uint.
  destruct (Nat.to_uint n) eqn:Hd; try reflexivity;
    rewrite <- Hd; apply string_of_uint_digits.
Qed.

Lemma zfill_digits (width n : nat) :
  all_chars is_digit (Str.zfill width (Str.of_nat n)) = true.
Proof.
  unfold Str.zfill. rewrite all_chars_app, of_nat_digits, andb_true_r.
  induction (width - String.length (Str.of_nat n)) as [|k IH];
    [reflexivity | exact IH].
Qed.

(** The run timestamp, field by field. *)
Lemma timestamp_fields (d : datetime) :
  strftime d "%Y-%m-%d_%H-%M"
  = Str.zfill 4 (Str.of_nat (year d)) +:+ "-"
    +:+ Str.zfill 2 (Str.of_nat (month d)) +:+ "-"
    +:+ Str.zfill 2 (Str.of_nat (day d)) +:+ "_"
    +:+ Str.zfill 2 (Str.of_nat (hour d)) +:+ "-"
    +:+ Str.zfill 2 (Str.of_nat (minute d)).
Proof.
  cbn [strftime]. unfold directive. cbn. rewrite app_empty_r. reflexivity.
Qed.

Lemma digit_timestamp_char (c : ascii) :
  is_digit c = true -> timestamp_char c = true.
Proof. unfold timestamp_char. intros ->. reflexivity. Qed.

Lemma timestamp_chars (now : datetime) :
  all_chars timestamp_char (strftime now "%Y-%m-%d_%H-%M") = true.
Proof.
  rewrite timestamp_fields, !all_chars_app.
  rewrite !(all_chars_impl _ _ _ digit_timestamp_char (zfill_digits _ _)).
  reflexivity.
Qed.

(** X5.  Whatever the clock shows, the run timestamp consists of digits,
    hyphens and underscores only, and so do the two file names between
    their fixed directory and extension: no slash, dot, colon or space
    comes from the clock. *)
Theorem timestamp_alphabet (api : Api) (w w' : World) (run : Run) :
  main api w = (Ok run, w') ->
  exists ts : string,
    all_chars timestamp_char ts = true
    /\ json_file run = "data/" +:+ ts +:+ ".json"
    /\ csv_file run = "data/" +:+ ts +:+ ".csv"
    /\ Forall (fun r => timestamp r = ts)
              (filtered_metrics run).
Proof.
  intros H. exists (strftime (clock w (reads w)) "%Y-%m-%d_%H-%M").
  split; [apply timestamp_chars |].
  pose proof (main_snapshot_mapped _ _ _ _ H) as Hall.
  destruct (main_inv _ _ _ _ H) as [snap [csv [_ [_ [-> _]]]]].
  split; [reflexivity |]. split; [reflexivity |].
  eapply Forall_impl; [exact Hall |].
  intros r [item Hr]. apply (map_item_constants _ _ _ Hr).
Qed.

Lemma timestamp_alphabet_witness :
  exists ts : string,
    all_chars timestamp_char ts = true
    /\ json_file sample_run = "data/" +:+ ts +:+ ".json"
    /\ csv_file sample_run = "data/" +:+ ts +:+ ".csv"
    /\ Forall (fun r => timestamp r = ts)
              (filtered_metrics sample_run).
Proof.
  apply (timestamp_alphabet sample_api sample_world
           (after_run sample_world sample_run)).
  vm_compute. reflexivity.
Defined.

(** A run of digits ends at the first character that is not a digit. *)
Lemma digits_split (c : ascii) (a1 : string) :
  is_digit c = false ->
  forall a2 r1 r2,
    all_chars is_digit a1 = true -> all_chars is_digit a2 = true ->
    a1 +:+ String c r1 = a2 +:+ String c r2 ->
    a1 = a2 /\ r1 = r2.
Proof.
  intros Hc. induction a1 as [|x a1 IH]; intros a2 r1 r2 H1 H2 H;
    destruct a2 as [|y a2]; simpl in *.
  - injection H as ->. split; reflexivity.
  - injection H as <- _. apply andb_true_iff in H2. destruct H2 as [H2 _].
    rewrite Hc in H2. discriminate.
  - injection H as -> _. apply andb_true_iff in H1. destruct H1 as [H1 _].
    rewrite Hc in H1. discriminate.
  - injection H as <- H. apply andb_true_iff in H1, H2.
    destruct H1 as [_ H1]. destruct H2 as [_ H2].
    destruct (IH a2 r1 r2 H1 H2 H) as [-> ->]. split; reflexivity.
Qed.

(** Reading a zero-filled decimal back gives the number. *)
Lemma uint_of_nat (n : nat) :
  exists d, NilEmpty.uint_of_string (Str.of_nat n) = Some d
            /\ Nat.of_uint d = n.
Proof.
  unfold Str.of_nat, NilZero.string_of_uint.
  pose proof (DecimalNat.Unsigned.of_to n) as Hn.
  destruct (Nat.to_uint n) eqn:Hd;
    try (rewrite <- Hd, NilEmpty.usu; exists (Nat.to_uint n);
         rewrite Hd; split; [reflexivity | exact Hn]).
  exists (Decimal.D0 Decimal.Nil). split; [reflexivity | exact Hn].
Qed.

Lemma uint_of_zfill (width n : nat) :
  exists d, NilEmpty.uint_of_string (Str.zfill width (Str.of_nat n)) = Some d
            /\ Nat.of_uint d = n.
Proof.
  unfold Str.zfill.
  induction (width - String.length (Str.of_nat n)) as [|k IH].
  - apply uint_of_nat.
  - destruct IH as [d [Hd Hn]]. exists (Decimal.D0 d).
    cbn [Str.repeat String.append NilEmpty.uint_of_string].
    rewrite Hd. split; [reflexivity | exact Hn].
Qed.

Lemma zfill_inj (width n m : nat) :
  Str.zfill width (Str.of_nat n) = Str.zfill width (Str.of_nat m) -> n = m.
Proof.
  intros H.
  destruct (uint_of_zfill width n) as [d [Hd <-]].
  destruct (uint_of_zfill width m) as [d' [Hd' <-]].
  rewrite H, Hd' in Hd. injection Hd as ->. reflexivity.
Qed.

(** X7.  Two clock readings give the same run timestamp, and so the same
    two file names, exactly when they lie in the same minute: runs in
    different minutes never share a data file, runs within one minute
    always do. *)
Theorem timestamp_same_minute (d1 d2 : datetime) :
  (strftime d1 "%Y-%m-%d_%H-%M" = strftime d2 "%Y-%m-%d_%H-%M"
   <-> same_minute d1 d2)
  /\ ("data/" +:+ strftime d1 "%Y-%m-%d_%H-%M" +:+ ".json"
      = "data/" +:+ strftime d2 "%Y-%m-%d_%H-%M" +:+ ".json"
      <-> same_minute d1 d2).
Proof.
  assert (Hts : strftime d1 "%Y-%m-%d_%H-%M" = strftime d2 "%Y-%m-%d_%H-%M"
                <-> same_minute d1 d2).
  { rewrite !timestamp_fields. unfold same_minute. split.
    - intros H.
      apply digits_split in H; try reflexivity; try apply zfill_digits.
      destruct H as [Hy H].
      apply digits_split in H; try reflexivity; try apply zfill_digits.
      destruct H as [Hm H].
      apply digits_split in H; try reflexivity; try apply zfill_digits.
      destruct H as [Hd H].
      change (Str.zfill 2 (Str.of_nat (hour d1)) +:+ "-"
              +:+ Str.zfill 2 (Str.of_nat (minute d1)))
        with (Str.zfill 2 (Str.of_nat (hour d1))
              +:+ String "-" (Str.zfill 2 (Str.of_nat (minute d1)))) in H.
      apply digits_split in H; try reflexivity; try apply zfill_digits.
      destruct H as [Hh Hmi].
      repeat split; eapply zfill_inj; eassumption.
    - intros [-> [-> [-> [-> ->]]]]. reflexivity. }
  split; [exact Hts |]. rewrite <- Hts. split.
  - intros H. apply app_inv_head_str in H.
    rewrite !timestamp_fields in *.
    rewrite !app_assoc_str in H.
    apply digits_split in H; try reflexivity; try apply zfill_digits.
    destruct H as [Hy H].
    apply digits_split in H; try reflexivity; try apply zfill_digits.
    destruct H as [Hm H].
    apply digits_split in H; try reflexivity; try apply zfill_digits.
    destruct H as [Hd H].
    apply digits_split in H; try reflexivity; try apply zfill_digits.
    destruct H as [Hh H].
    apply digits_split in H; try reflexivity; try apply zfill_digits.
    destruct H as [Hmi _].
    rewrite Hy, Hm, Hd, Hh, Hmi. reflexivity.
  - intros ->. reflexivity.
Qed.

Lemma length_app_str (a b : string) :
  String.length (a +:+ b) = String.length a + String.length b.
Proof. induction a as [|c a IH]; simpl; [reflexivity | rewrite IH; reflexivity]. Qed.

Lemma in_seq_bound (n bound : nat) : n <= bound -> In n (seq 0 (S bound)).
Proof. intros H. apply in_seq. split; [apply Nat.le_0_l |]. apply Nat.lt_succ_r, H. Qed.

Lemma zfill_width (width bound : nat) :
  forallb (fun n => String.length (Str.zfill width (Str.of_nat n)) =? width)
          (seq 0 (S bound)) = true ->
  forall n, n <= bound ->
            String.length (Str.zfill width (Str.of_nat n)) = width.
Proof.
  intros Hall n Hn. apply Nat.eqb_eq.
  apply (proj1 (forallb_forall _ _) Hall n), in_seq_bound, Hn.
Qed.

Lemma two_digits (n : nat) :
  n <= 99 -> String.length (Str.zfill 2 (Str.of_nat n)) = 2.
Proof. apply zfill_width. vm_compute. reflexivity. Qed.

Lemma four_digits (n : nat) :
  n <= 9999 -> String.length (Str.zfill 4 (Str.of_nat n)) = 4.
Proof. apply zfill_width. vm_compute. reflexivity. Qed.

(** X6.  For a reading of the clock with a four-digit year the run
    timestamp has exactly sixteen characters: four for the year and two for
    each other field. *)
Theorem timestamp_width (now : datetime) :
  four_digit_year now ->
  String.length (strftime now "%Y-%m-%d_%H-%M") = 16.
Proof.
  intros [[_ Hy] [[_ Hm] [[_ Hd] [Hh [Hmi _]]]]].
  rewrite timestamp_fields, !length_app_str.
  rewrite (four_digits _ Hy).
  rewrite !two_digits; [reflexivity | | | |];
    (eapply Nat.le_trans; [eassumption |]); repeat constructor.
Qed.

Lemma timestamp_width_witness :
  String.length (strftime noon "%Y-%m-%d_%H-%M") = 16.
Proof.
  apply (timestamp_width noon). unfold four_digit_year, noon.
  cbn [year month day hour minute second].
  repeat split; apply Nat.leb_le; vm_compute; reflexivity.
Defined.

(** ** The files of a run without hosts *)

Lemma after_run_files (w : World) (snapshot : list ExportRecord)
    (csv : string) :
  files (after_run w (run_of w snapshot csv)) !! "README.md"
  = Some (readme_content (run_of w snapshot csv))
  /\ files (after_run w (run_of w snapshot csv))
       !! json_file (run_of w snapshot csv)
     = Some (json_document snapshot)
  /\ files (after_run w (run_of w snapshot csv))
       !! csv_file (run_of w snapshot csv)
     = Some csv.
Proof.
  unfold after_run, run_of.
  cbn [files readme_content json_file json_content csv_file csv_content].
  set (T := strftime (clock w (reads w)) "%Y-%m-%d_%H-%M").
  pose proof (data_files_differ T) as Hjc.
  pose proof (readme_not_data T ".json") as Hrj.
  pose proof (readme_not_data T ".csv") as Hrc.
  repeat split.
  - rewrite lookup_insert_ne by (intros E; apply Hrc; symmetry; exact E).
    rewrite lookup_insert_ne by (intros E; apply Hrj; symmetry; exact E).
    apply lookup_insert_eq.
  - rewrite lookup_insert_ne by (intros E; apply Hjc; symmetry; exact E).
    apply lookup_insert_eq.
  - apply lookup_insert_eq.
Qed.

(** C8.  When the API returns no host the run succeeds with an empty
    snapshot and leaves three files: the JSON file holds "[]", the CSV file
    holds the header line alone, which reads back as the header row and no
    data row, and README.md holds a summary with the line
    "- Total Metrics Collected: 0". *)
Theorem zero_hosts_empty_snapshot (api : Api) (w : World) :
  host_get api = [] ->
  exists (run : Run) (w' : World),
    main api w = (Ok run, w')
    /\ filtered_metrics run = []
    /\ json_content run = "[]"
    /\ csv_content run = "host,metric,value,units,timestamp" +:+ Layout.CRLF
    /\ CsvReader.read (csv_content run)
       = [["host"; "metric"; "value"; "units"; "timestamp"]]
    /\ Str.occurs_in ("- Total Metrics Collected: 0" +:+ Str.nl)
                     (readme_content run)
    /\ files w' !! json_file run = Some "[]"
    /\ files w' !! csv_file run
       = Some ("host,metric,value,units,timestamp" +:+ Layout.CRLF)
    /\ files w' !! "README.md" = Some (readme_content run).
Proof.
  intros Hhosts.
  exists (run_of w [] (Layout.table [])),
         (after_run w (run_of w [] (Layout.table []))).
  destruct (after_run_files w [] (Layout.table [])) as [Hr [Hj Hc]].
  split.
  - apply main_Ok; [rewrite Hhosts; reflexivity | apply csv_document_table].
  - split; [reflexivity |]. split; [reflexivity |]. split; [reflexivity |].
    split; [reflexivity |]. split; [apply readme_reports_count |].
    split; [exact Hj |]. split; [exact Hc | exact Hr].
Qed.

Lemma zero_hosts_empty_snapshot_witness :
  exists (run : Run) (w' : World),
    main empty_api sample_world = (Ok run, w')
    /\ filtered_metrics run = []
    /\ json_content run = "[]"
    /\ csv_content run = "host,metric,value,units,timestamp" +:+ Layout.CRLF
    /\ CsvReader.read (csv_content run)
       = [["host"; "metric"; "value"; "units"; "timestamp"]]
    /\ Str.occurs_in ("- Total Metrics Collected: 0" +:+ Str.nl)
                     (readme_content run)
    /\ files w' !! json_file run = Some "[]"
    /\ files w' !! csv_file run
       = Some ("host,metric,value,units,timestamp" +:+ Layout.CRLF)
    /\ files w' !! "README.md" = Some (readme_content run).
Proof.
  apply (zero_hosts_empty_snapshot empty_api sample_world). reflexivity.
Defined.

(** ** The summary and the clock *)

Lemma of_nat_inj (n m : nat) : Str.of_nat n = Str.of_nat m -> n = m.
Proof.
  intros H. destruct (uint_of_nat n) as [d [Hd <-]].
  destruct (uint_of_nat m) as [d' [Hd' <-]].
  rewrite H, Hd' in Hd. injection Hd as ->. reflexivity.
Qed.

(** The time the summary shows, field by field. *)
Lemma summary_time_fields (d : datetime) :
  strftime d "%Y-%m-%d %H:%M UTC"
  = Str.zfill 4 (Str.of_nat (year d)) +:+ "-"
    +:+ Str.zfill 2 (Str.of_nat (month d)) +:+ "-"
    +:+ Str.zfill 2 (Str.of_nat (day d)) +:+ " "
    +:+ Str.zfill 2 (Str.of_nat (hour d)) +:+ ":"
    +:+ Str.zfill 2 (Str.of_nat (minute d)) +:+ " UTC".
Proof. cbn [strftime]. unfold directive. cbn. reflexivity. Qed.

(** The summary shows its count and the minute of its time: both can be
    read off it. *)
Lemma readme_template_inj (d1 d2 : datetime) (n1 n2 : nat) :
  readme_template (strftime d1 "%Y-%m-%d %H:%M UTC") n1
  = readme_template (strftime d2 "%Y-%m-%d %H:%M UTC") n2 ->
  n1 = n2 /\ same_minute d1 d2.
Proof.
  rewrite !summary_time_fields. unfold readme_template.
  cbn [Str.join]. rewrite !app_assoc_str. intros H.
  repeat (apply app_inv_head_str in H).
  apply digits_split in H; try reflexivity; try apply zfill_digits.
  destruct H as [Hy H].
  apply digits_split in H; try reflexivity; try apply zfill_digits.
  destruct H as [Hm H].
  apply digits_split in H; try reflexivity; try apply zfill_digits.
  destruct H as [Hd H].
  apply digits_split in H; try reflexivity; try apply zfill_digits.
  destruct H as [Hh H].
  apply digits_split in H; try reflexivity; try apply zfill_digits.
  destruct H as [Hmi H].
  injection H as H. repeat (apply app_inv_head_str in H).
  apply (digits_split Str.LF) in H; try reflexivity; try apply of_nat_digits.
  destruct H as [Hn _].
  split; [apply of_nat_inj, Hn |].
  unfold same_minute. repeat split; eapply zfill_inj; eassumption.
Qed.

Lemma same_minute_summary_time (d1 d2 : datetime) :
  same_minute d1 d2 ->
  strftime d1 "%Y-%m-%d %H:%M UTC" = strftime d2 "%Y-%m-%d %H:%M UTC".
Proof.
  intros [Hy [Hm [Hd [Hh Hmi]]]].
  rewrite !summary_time_fields, Hy, Hm, Hd, Hh, Hmi. reflexivity.
Qed.

Lemma Ok_inj {A : Type} (a b : A) : Ok a = Ok b -> a = b.
Proof. intros H. injection H as H. exact H. Qed.

(** C9 as the specification states it fails: the time is no input of
    [generate_readme].  Called with the same and only argument in two
    worlds that differ in nothing but what the clock shows, it returns two
    different summaries; so no function of its argument gives its
    result. *)
Lemma generate_readme_clock_is_ambient :
  fst (generate_readme 2 sample_world) <> fst (generate_readme 2 later_world)
  /\ ~ (exists summary : nat -> string,
           forall (metrics_count : nat) (w : World),
             fst (generate_readme metrics_count w)
             = Ok (summary metrics_count)).
Proof.
  assert (Hne : fst (generate_readme 2 sample_world)
                <> fst (generate_readme 2 later_world))
    by (intros H; vm_compute in H; discriminate).
  split; [exact Hne |].
  intros [summary Hsummary]. apply Hne. rewrite !Hsummary. reflexivity.
Qed.

(** C9, amended.  The summary is determined by the record count and by the
    reading of the clock that [generate_readme] takes itself, to the
    minute: two calls return the same string exactly when their counts are
    equal and their readings lie in the same minute, whatever else differs
    between their worlds; a call consumes one reading of the clock and
    changes nothing else. *)
Theorem generate_readme_count_and_minute (n1 n2 : nat) (w1 w2 : World) :
  (fst (generate_readme n1 w1) = fst (generate_readme n2 w2)
   <-> n1 = n2 /\ same_minute (clock w1 (reads w1)) (clock w2 (reads w2)))
  /\ fst (generate_readme n1 w1)
     = Ok (readme_template
             (strftime (clock w1 (reads w1)) "%Y-%m-%d %H:%M UTC") n1)
  /\ snd (generate_readme n1 w1) = tick w1.
Proof.
  unfold generate_readme, bindM, datetime_now, ret. cbn [fst snd].
  split; [| split; reflexivity]. split.
  - intros H. apply readme_template_inj, (Ok_inj _ _ H).
  - intros [-> Hmin]. rewrite (same_minute_summary_time _ _ Hmin).
    reflexivity.
Qed.

(** ** The redaction policy, further *)

Lemma lower_app (a b : string) :
  Str.lower (a +:+ b) = Str.lower a +:+ Str.lower b.
Proof.
  induction a as [|c a IH]; simpl; [reflexivity | rewrite IH; reflexivity].
Qed.

Lemma lower_char_idempotent (c : ascii) :
  Str.lower_char (Str.lower_char c) = Str.lower_char c.
Proof. destruct c as [[] [] [] [] [] [] [] []]; reflexivity. Qed.

Lemma lower_idempotent (s : string) : Str.lower (Str.lower s) = Str.lower s.
Proof.
  induction s as [|c s IH]; simpl; [reflexivity |].
  rewrite lower_char_idempotent, IH. reflexivity.
Qed.

(** X8.  A name that contains a redacted name is redacted: whatever is put
    before and after a redacted name, the result is redacted too. *)
Theorem should_redact_embedded (name : string) :
  should_redact name = true ->
  forall pre post : string, should_redact (pre +:+ name +:+ post) = true.
Proof.
  rewrite should_redact_iff. intros [field [Hin [a [b Hocc]]]] pre post.
  apply should_redact_iff. exists field. split; [exact Hin |].
  exists (Str.lower pre +:+ a), (b +:+ Str.lower post).
  rewrite !lower_app, Hocc, !app_assoc_str. reflexivity.
Qed.

Lemma should_redact_embedded_witness :
  should_redact ("Primary " +:+ "Host Name" +:+ " (eth0)") = true.
Proof.
  apply (should_redact_embedded "Host Name"). vm_compute. reflexivity.
Defined.

(** X9.  The verdict does not depend on letter case: two names with the
    same lower-cased form are both redacted or both let through, and a name
    gets the verdict of its lower-cased form. *)
Theorem should_redact_case_insensitive :
  (forall a b : string,
      Str.lower a = Str.lower b -> should_redact a = should_redact b)
  /\ (forall a : string, should_redact (Str.lower a) = should_redact a).
Proof.
  assert (H : forall a b : string,
             Str.lower a = Str.lower b -> should_redact a = should_redact b).
  { intros a b Hab. unfold should_redact. cbn zeta. rewrite Hab.
    reflexivity. }
  split; [exact H |]. intros a. apply H, lower_idempotent.
Qed.

(** ** The mapper, further *)

(** X10.  Of a redacted item only the units reach the record: two items
    with redacted names and the same units are mapped alike, whatever their
    names, values and other keys. *)
Theorem redacted_items_alike (ts : string) (item item' : gmap string string)
    (name name' : string) :
  item !! "name" = Some name -> item' !! "name" = Some name' ->
  should_redact name = true -> should_redact name' = true ->
  item !! "units" = item' !! "units" ->
  map_item ts item = map_item ts item'.
Proof.
  intros Hn Hn' Hr Hr' Hu.
  rewrite !map_item_cases, Hn, Hn', Hr, Hr', Hu. reflexivity.
Qed.

Lemma redacted_items_alike_witness :
  map_item "2024-05-21_12-00" sample_item
  = map_item "2024-05-21_12-00" ip_item.
Proof.
  apply (redacted_items_alike "2024-05-21_12-00" sample_item ip_item
           "Host Name" "IP Address"); vm_compute; reflexivity.
Defined.

(** X11.  The mapper reads three keys of an item and no other: items that
    agree on name, lastvalue and units give the same record or the same
    error, so an itemid or a lastclock never reaches the output. *)
Theorem map_item_reads_three_keys (ts : string)
    (item item' : gmap string string) :
  same_readings item item' -> map_item ts item = map_item ts item'.
Proof.
  intros [Hn [Hv Hu]]. rewrite !map_item_cases, Hn, Hv, Hu. reflexivity.
Qed.

Lemma map_item_reads_three_keys_witness :
  map_item "2024-05-21_12-00" cpu_item
  = map_item "2024-05-21_12-00"
             (<["itemid" := "23296"]> (<["lastclock" := "1716292800"]> cpu_item)).
Proof.
  apply (map_item_reads_three_keys "2024-05-21_12-00").
  unfold same_readings. vm_compute. repeat split; reflexivity.
Defined.

Lemma redacted_insert_twice (item : gmap string string) :
  <["lastvalue" := "REDACTED"]>
    (<["name" := "REDACTED"]>
       (<["lastvalue" := "REDACTED"]> (<["name" := "REDACTED"]> item)))
  = <["lastvalue" := "REDACTED"]> (<["name" := "REDACTED"]> item).
Proof.
  apply map_eq. intros k.
  destruct (decide (k = "lastvalue")) as [-> | Hv].
  - rewrite !lookup_insert_eq. reflexivity.
  - rewrite !(lookup_insert_ne _ "lastvalue" k) by (intros E; apply Hv; symmetry; exact E).
    destruct (decide (k = "name")) as [-> | Hn].
    + rewrite !lookup_insert_eq. reflexivity.
    + rewrite !(lookup_insert_ne _ "name" k) by (intros E; apply Hn; symmetry; exact E).
      rewrite !(lookup_insert_ne _ "lastvalue" k) by (intros E; apply Hv; symmetry; exact E).
      rewrite !(lookup_insert_ne _ "name" k) by (intros E; apply Hn; symmetry; exact E).
      reflexivity.
Qed.

(** X12.  The in-place redaction touches the keys name and lastvalue only,
    and redacting the redacted item again changes nothing. *)
Theorem redact_item_idempotent (item item' : gmap string string) :
  redact_item item = Ok item' ->
  redact_item item' = Ok item'
  /\ forall k : string,
       k <> "name" -> k <> "lastvalue" -> item' !! k = item !! k.
Proof.
  unfold redact_item, getitem.
  destruct (item !! "name") as [name|] eqn:Hn; cbn [bind]; [| discriminate].
  destruct (should_redact name) eqn:Hr; intros H; injection H as <-.
  - split.
    + rewrite (lookup_insert_ne _ "lastvalue" "name") by discriminate.
      rewrite lookup_insert_eq. cbn [bind].
      rewrite should_redact_marker, redacted_insert_twice. reflexivity.
    + intros k Hkn Hkv.
      rewrite lookup_insert_ne by (intros E; apply Hkv; symmetry; exact E).
      rewrite lookup_insert_ne by (intros E; apply Hkn; symmetry; exact E).
      reflexivity.
  - split; [| reflexivity]. rewrite Hn. cbn [bind]. rewrite Hr. reflexivity.
Qed.

Lemma redact_item_idempotent_witness :
  redact_item
    (<["lastvalue" := "REDACTED"]> (<["name" := "REDACTED"]> sample_item))
  = Ok (<["lastvalue" := "REDACTED"]> (<["name" := "REDACTED"]> sample_item))
  /\ forall k : string,
       k <> "name" -> k <> "lastvalue" ->
       <["lastvalue" := "REDACTED"]> (<["name" := "REDACTED"]> sample_item)
         !! k
       = sample_item !! k.
Proof.
  apply (redact_item_idempotent sample_item). vm_compute. reflexivity.
Defined.

(** ** The documents, further *)

Lemma escape_char_plain (c : ascii) :
  all_chars plain_ascii (Json.escape_char c) = true.
Proof. destruct c as [[] [] [] [] [] [] [] []]; reflexivity. Qed.

Lemma escape_plain (s : string) :
  all_chars plain_ascii (Json.escape s) = true.
Proof.
  induction s as [|c s IH]; cbn [Json.escape]; [reflexivity |].
  rewrite all_chars_app, escape_char_plain, IH. reflexivity.
Qed.

Lemma literal_plain (s : string) :
  all_chars plain_ascii (Layout.literal s) = true.
Proof.
  unfold Layout.literal, Str.quoted.
  rewrite !all_chars_app, escape_plain. reflexivity.
Qed.

Lemma object_plain (r : ExportRecord) :
  all_chars plain_ascii (Layout.object r) = true.
Proof.
  unfold Layout.object, Layout.member.
  rewrite !all_chars_app, !literal_plain. reflexivity.
Qed.

Lemma join_plain (sep : string) (l : list string) :
  all_chars plain_ascii sep = true ->
  Forall (fun s => all_chars plain_ascii s = true) l ->
  all_chars plain_ascii (Str.join sep l) = true.
Proof.
  intros Hsep Hl. induction Hl as [|x l Hx Hl IH]; [reflexivity |].
  destruct l as [|y l]; [exact Hx |].
  change (Str.join sep (x :: y :: l))
    with (x +:+ sep +:+ Str.join sep (y :: l)).
  rewrite !all_chars_app, Hx, Hsep, IH. reflexivity.
Qed.

(** X13.  The JSON document of any snapshot is plain ASCII: printable
    characters and line feeds only, whatever characters the records
    hold. *)
Theorem json_document_ascii (snapshot : list ExportRecord) :
  all_chars plain_ascii (json_document snapshot) = true.
Proof.
  rewrite dump_array. unfold Layout.array.
  destruct snapshot as [|r rest]; [reflexivity |].
  rewrite !all_chars_app, join_plain; [reflexivity | reflexivity |].
  apply List.Forall_forall. intros s Hs. apply in_map_iff in Hs.
  destruct Hs as [x [<- _]]. apply object_plain.
Qed.

Lemma double_quotes_length (s : string) :
  String.length s <= String.length (Csv.double_quotes s).
Proof.
  induction s as [|c s IH]; cbn [Csv.double_quotes]; [constructor |].
  destruct (Ascii.eqb c Csv.quotechar); cbn [String.length].
  - apply le_n_S, le_S, IH.
  - apply le_n_S, IH.
Qed.

(** X14.  The writer quotes as little as it can: a field is written
    verbatim exactly when it holds no comma, double quote, carriage return
    or line feed, and between double quotes with its quotes doubled
    otherwise. *)
Theorem join_append_minimal (s : string) :
  (Csv.join_append s false = s <-> Str.any Csv.special s = false)
  /\ (Str.any Csv.special s = true ->
      Csv.join_append s false = Str.quoted (Csv.double_quotes s)).
Proof.
  unfold Csv.join_append. cbn [orb].
  destruct (Str.any Csv.special s) eqn:Hs.
  - split; [| reflexivity]. split; [| discriminate].
    intros H. apply (f_equal String.length) in H.
    cbn [String.length] in H. rewrite length_app_str in H.
    cbn [Str.of_char String.length] in H.
    pose proof (double_quotes_length s) as Hlen.
    rewrite <- H in Hlen. exfalso.
    rewrite Nat.add_1_r in Hlen.
    apply (Nat.nle_succ_diag_l _ (Nat.le_trans _ _ _ (le_S _ _ (le_n _)) Hlen)).
  - split; [| discriminate].
    split; [reflexivity |]. intros _. apply double_quotes_plain, Hs.
Qed.

(** ** The publish step *)

Lemma timestamp_command_char (c : ascii) :
  timestamp_char c = true -> command_char c = true.
Proof. destruct c as [[] [] [] [] [] [] [] []]; vm_compute; trivial. Qed.

(** X16.  Whatever the clock shows, the four command lines handed to the
    shell consist of letters, digits, spaces, the characters - . / : _ and
    the double quotes around the commit message: the interpolated timestamp
    brings in nothing the shell would expand or split on. *)
Theorem git_commands_plain (now : datetime) :
  Forall (fun command => all_chars command_char command = true)
         (publish now)
  /\ length (publish now) = 4.
Proof.
  pose proof (all_chars_impl _ _ _ timestamp_command_char
                (timestamp_chars now)) as HT.
  unfold publish, git_commands, Str.quoted. split; [| reflexivity].
  repeat constructor; rewrite ?all_chars_app, ?HT; reflexivity.
Qed.

(** ** The requests and the run *)

Lemma has_keys_In (keys : list string) (d : gmap string string) (k : string) :
  has_keys keys d -> In k keys -> is_Some (d !! k).
Proof.
  unfold has_keys. intros Hall Hin.
  apply (proj1 (List.Forall_forall _ _) Hall k Hin).
Qed.

Lemma conforming_item_mappable (item : gmap string string) :
  has_keys item_get_output item -> mappable item.
Proof.
  intros Hitem.
  destruct (has_keys_In _ _ "name" Hitem) as [name Hname];
    [unfold item_get_output, In; tauto |].
  exists name. split; [exact Hname |]. split.
  - apply (has_keys_In _ _ "units" Hitem). unfold item_get_output, In. tauto.
  - right. apply (has_keys_In _ _ "lastvalue" Hitem).
    unfold item_get_output, In. tauto.
Qed.

(** X15.  The keys the loops subscript are among the properties the two
    requests ask for: a host object that carries every requested host
    property has the hostid the outer loop reads, and over items that carry
    every requested item property the inner loop cannot raise and yields
    one record per item. *)
Theorem requested_properties_suffice (ts : string) (h : gmap string string)
    (items : list (gmap string string)) (acc : list ExportRecord) :
  has_keys host_get_output h ->
  Forall (has_keys item_get_output) items ->
  (exists hostid, getitem h "hostid" = Ok hostid)
  /\ exists new,
       items_loop ts items acc = Ok (acc ++ new)
       /\ length new = length items.
Proof.
  intros Hh Hitems. split.
  - destruct (has_keys_In _ _ "hostid" Hh) as [hostid Hid];
      [left; reflexivity |].
    exists hostid. unfold getitem. rewrite Hid. reflexivity.
  - assert (Hmap : Forall mappable items)
      by (eapply Forall_impl; [exact Hitems |];
          intros item; apply conforming_item_mappable).
    apply (Forall2_mappable ts) in Hmap. destruct Hmap as [new Hnew].
    exists new. split.
    + apply items_loop_Ok. exists new. split; [reflexivity | exact Hnew].
    + symmetry. apply (Forall2_length _ _ _ Hnew).
Qed.

Lemma requested_properties_suffice_witness :
  (exists hostid, getitem full_host "hostid" = Ok hostid)
  /\ exists new,
       items_loop "2024-05-21_12-00" [full_item; full_item] [] = Ok ([] ++ new)
       /\ length new = length [full_item; full_item].
Proof.
  apply (requested_properties_suffice "2024-05-21_12-00" full_host
           [full_item; full_item] []);
    repeat constructor; vm_compute; eauto.
Defined.

(** X17.  The two data files a successful run leaves in the file system,
    read back by the JSON reader and by the CSV reader, both give the run's
    snapshot. *)
Theorem run_files_read_back (api : Api) (w w' : World) (run : Run) :
  main api w = (Ok run, w') ->
  exists json csv : string,
    files w' !! json_file run = Some json
    /\ files w' !! csv_file run = Some csv
    /\ JsonReader.records json = Some (filtered_metrics run)
    /\ CsvReader.records csv = Some (filtered_metrics run).
Proof.
  intros H.
  destruct (main_inv _ _ _ _ H) as [snap [csv [_ [Hcsv [-> ->]]]]].
  rewrite csv_document_table in Hcsv. injection Hcsv as <-.
  exists (json_document snap), (Layout.table snap).
  unfold after_run, run_of.
  cbn [files json_file json_content csv_file csv_content filtered_metrics].
  split.
  { rewrite lookup_insert_ne
      by (intros E; apply (data_files_differ _ (eq_sym E))).
    apply lookup_insert_eq. }
  split; [apply lookup_insert_eq |].
  split; [rewrite dump_array; apply json_records_array |].
  apply csv_records_table.
Qed.

Lemma run_files_read_back_witness :
  exists json csv : string,
    files (after_run sample_world sample_run) !! json_file sample_run
    = Some json
    /\ files (after_run sample_world sample_run) !! csv_file sample_run
       = Some csv
    /\ JsonReader.records json = Some (filtered_metrics sample_run)
    /\ CsvReader.records csv = Some (filtered_metrics sample_run).
Proof.
  apply (run_files_read_back sample_api sample_world). vm_compute.
  reflexivity.
Defined.
